(** * Astra Ledger: a shallow embedding of the ledger core

    The development follows the TypeScript sources:
    - [services/geminiService.ts]: [buildMemoryContext], [runParsingAgent],
      [runVisionAgent], [runSummaryAgent];
    - [services/firebaseService.ts]: [getLocalData], [saveLocalData],
      [subscribeToExpenses], [addExpense], [removeExpense];
    - [App] (the component holding [handleSend]).

    JavaScript strings are sequences of UTF-16 code units, numbers that hold
    amounts are kept abstract (the code only adds them and prints them), and
    numbers that hold times are integers.  Everything the code obtains from
    the browser or from a remote service is an oracle of the environment. *)

From Stdlib Require Import List ZArith NArith Bool Lia String Ascii.
From Stdlib Require DecimalString.
From Stdlib Require Import Sorted Permutation.
Import ListNotations.

Set Implicit Arguments.

(* ================================================================== *)
(** ** JavaScript strings *)

Module JS.

(** A string is its list of UTF-16 code units. *)
Definition code_unit := N.
Definition jsstring := list code_unit.

(** An ASCII literal of the source, as code units. *)
Definition lit (s : string) : jsstring :=
  List.map N_of_ascii (list_ascii_of_string s).

Definition cu_eqb (a b : code_unit) : bool := N.eqb a b.

Fixpoint str_eqb (s t : jsstring) : bool :=
  match s, t with
  | [], [] => true
  | a :: s', b :: t' => cu_eqb a b && str_eqb s' t'
  | _, _ => false
  end.

(** Truthiness of a string value: only the empty string is falsy. *)
Definition truthy (s : jsstring) : bool :=
  match s with [] => false | _ :: _ => true end.

(** [a || b] on strings. *)
Definition or_else (a b : jsstring) : jsstring :=
  if truthy a then a else b.

(** WhiteSpace and LineTerminator code points, the set [String.prototype.trim]
    strips. *)
Definition is_white (c : code_unit) : bool :=
  ((9 <=? c) && (c <=? 13) || (c =? 32) || (c =? 160) || (c =? 5760)
   || (8192 <=? c) && (c <=? 8202) || (c =? 8232) || (c =? 8233)
   || (c =? 8239) || (c =? 8287) || (c =? 12288) || (c =? 65279))%N.

Fixpoint trimStart (s : jsstring) : jsstring :=
  match s with
  | c :: s' => if is_white c then trimStart s' else s
  | [] => []
  end.

Definition trimEnd (s : jsstring) : jsstring := rev (trimStart (rev s)).

Definition trim (s : jsstring) : jsstring := trimEnd (trimStart s).

Definition is_ascii (c : code_unit) : bool := (c <? 128)%N.

Definition ascii_upper (c : code_unit) : code_unit :=
  if ((97 <=? c) && (c <=? 122))%N then (c - 32)%N else c.

Definition ascii_lower (c : code_unit) : code_unit :=
  if ((65 <=? c) && (c <=? 90))%N then (c + 32)%N else c.

(** What the code takes from the JavaScript runtime without defining it. *)
Class Runtime := {
  (** the number type of amounts, with the literal [0], [+] and
      [toLocaleString] *)
  num : Type;
  num_zero : num;
  num_add : num -> num -> num;
  num_toLocaleString : num -> jsstring;
  (** [toUpperCase] of a single code unit outside ASCII, when the result is
      again one code unit (the unit itself otherwise) *)
  upper_unit : code_unit -> code_unit;
  (** [toLowerCase] of a string that is not pure ASCII *)
  lower_string : jsstring -> jsstring
}.

Section WithRuntime.
Context {RT : Runtime}.

(** [String.prototype.toLowerCase]: on ASCII strings the letters A-Z are
    mapped one by one; the rest is the runtime's Unicode table. *)
Definition toLowerCase (s : jsstring) : jsstring :=
  if forallb is_ascii s then List.map ascii_lower s else lower_string s.

(** [toUpperCase] of a one-unit string, as the regular-expression engine
    uses it. *)
Definition toUpperCase1 (c : code_unit) : code_unit :=
  if is_ascii c then ascii_upper c else upper_unit c.

(** Canonicalize of a RegExp with the [i] flag and without the [u] flag:
    a non-ASCII unit is never mapped to an ASCII one. *)
Definition Canonicalize (ch : code_unit) : code_unit :=
  let cu := toUpperCase1 ch in
  if negb (is_ascii ch) && is_ascii cu then ch else cu.

(** One pattern character against one input unit under the [i] flag. *)
Definition char_match_i (p c : code_unit) : bool :=
  cu_eqb (Canonicalize p) (Canonicalize c).

(** A literal alternative matched at the start of the input. *)
Fixpoint match_prefix_i (pat text : jsstring) : bool :=
  match pat, text with
  | [], _ => true
  | p :: pat', c :: text' => char_match_i p c && match_prefix_i pat' text'
  | _ :: _, [] => false
  end.

(** [/^(w1|w2|...)/i.test(text)]. *)
Definition test_anchored_alt_i (alts : list jsstring) (text : jsstring)
  : bool :=
  existsb (fun w => match_prefix_i w text) alts.

End WithRuntime.

End JS.

Import JS.

(* ================================================================== *)
(** ** Data model ([types.ts]) *)

(** The [toMillis] member of a timestamp object: Firestore's accessor
    answers a fixed number of milliseconds, the accessor of the local stand-in
    is [() => Date.now()]. *)
Inductive Accessor : Type :=
| MillisAt (ms : Z)
| MillisNow.

Record Timestamp : Type := mkTimestamp {
  seconds : Z;
  nanoseconds : Z;
  toMillis : option Accessor
}.

Inductive AgentStatus : Type := idle | vision | parsing | ledger | summary.

Inductive Role : Type := user_msg | bot_msg.

Record File : Type := mkFile {
  file_type : jsstring;
  file_name : jsstring
}.

Section Model.
Context {RT : Runtime}.

Record Expense : Type := mkExpense {
  id : option jsstring;
  item : jsstring;
  amount : num;
  category : jsstring;
  createdAt : option Timestamp;
  originalText : option jsstring
}.

Record Message : Type := mkMessage {
  msg_id : jsstring + Z;
  msg_type : Role;
  msg_text : jsstring;
  msg_image : option jsstring;
  msg_data : option (list Expense)
}.

(** [constants.ts] *)
Definition CURRENCY_SYMBOL : jsstring := [226; 8218; 185]%N.

(* ================================================================== *)
(** ** Plain objects used as maps

    [habitMap] of [buildMemoryContext] is an object literal [{}]: its own
    properties are enumerated with the array-index keys first, in ascending
    numeric order, then the other keys in insertion order, and a property read
    falls back on [Object.prototype]. *)

Definition props : Type := list (jsstring * jsstring).

Definition is_digit (c : code_unit) : bool := ((48 <=? c) && (c <=? 57))%N.

Definition digits_value (s : jsstring) : N :=
  fold_left (fun acc c => (10 * acc + (c - 48))%N) s 0%N.

(** The key is a canonical numeric string of an integer below 2^32 - 1. *)
Definition array_index (k : jsstring) : option N :=
  match k with
  | [] => None
  | c :: rest =>
      if forallb is_digit k
         && (negb (cu_eqb c 48%N) || match rest with [] => true | _ => false end)
         && (List.length k <=? 10)%nat
         && (digits_value k <=? 4294967294)%N
      then Some (digits_value k) else None
  end.

Fixpoint own_get (k : jsstring) (o : props) : option jsstring :=
  match o with
  | [] => None
  | (k', v) :: o' => if str_eqb k k' then Some v else own_get k o'
  end.

(** The property names of [Object.prototype]. *)
Definition Object_prototype_names : list jsstring :=
  List.map lit
    [ "constructor"; "__defineGetter__"; "__defineSetter__";
      "hasOwnProperty"; "__lookupGetter__"; "__lookupSetter__";
      "isPrototypeOf"; "propertyIsEnumerable"; "toString"; "valueOf";
      "__proto__"; "toLocaleString" ]%string.

Definition inherited (k : jsstring) : bool :=
  existsb (str_eqb k) Object_prototype_names.

(** The result of reading [o[k]]. *)
Inductive Lookup : Type :=
| OwnValue (v : jsstring)
| FromPrototype
| Undefined.

Definition obj_get (o : props) (k : jsstring) : Lookup :=
  match own_get k o with
  | Some v => OwnValue v
  | None => if inherited k then FromPrototype else Undefined
  end.

Definition lookup_truthy (r : Lookup) : bool :=
  match r with
  | OwnValue v => truthy v
  | FromPrototype => true
  | Undefined => false
  end.

Fixpoint own_replace (k v : jsstring) (o : props) : props :=
  match o with
  | [] => []
  | (k', v') :: o' =>
      if str_eqb k k' then (k', v) :: o' else (k', v') :: own_replace k v o'
  end.

(** A new array-index key goes before the first key that is no index or a
    larger index. *)
Fixpoint insert_index (n : N) (k v : jsstring) (o : props) : props :=
  match o with
  | [] => [(k, v)]
  | (k', v') :: o' =>
      match array_index k' with
      | Some n' =>
          if (n' <? n)%N then (k', v') :: insert_index n k v o'
          else (k, v) :: o
      | None => (k, v) :: o
      end
  end.

(** [o[k] = v]: an own property keeps its place, a new one is placed by the
    enumeration order.  (The code assigns a key only after reading it as
    falsy, hence never a property name of [Object.prototype].) *)
Definition obj_set (o : props) (k v : jsstring) : props :=
  match own_get k o with
  | Some _ => own_replace k v o
  | None =>
      match array_index k with
      | Some n => insert_index n k v o
      | None => o ++ [(k, v)]
      end
  end.

Definition Object_entries (o : props) : list (jsstring * jsstring) := o.

Fixpoint join (sep : jsstring) (l : list jsstring) : jsstring :=
  match l with
  | [] => []
  | [s] => s
  | s :: l' => s ++ sep ++ join sep l'
  end.

(* ================================================================== *)
(** ** [services/geminiService.ts] *)

Definition habit_step (habitMap : props) (exp : Expense) : props :=
  if truthy (item exp) && truthy (category exp) then
    let key := trim (toLowerCase (item exp)) in
    if negb (lookup_truthy (obj_get habitMap key))
    then obj_set habitMap key (category exp)
    else habitMap
  else habitMap.

Definition habitMap_of (expenses : list Expense) : props :=
  fold_left habit_step expenses [].

Definition dquote : jsstring := [34%N].

Definition render_habit (e : jsstring * jsstring) : jsstring :=
  dquote ++ fst e ++ dquote ++ lit ": " ++ dquote ++ snd e ++ dquote.

Definition buildMemoryContext (expenses : list Expense) : jsstring :=
  join (lit ", ")
       (List.map render_habit
                 (firstn 50 (Object_entries (habitMap_of expenses)))).

End Model.

(* ================================================================== *)
(** ** The environment and the world *)

Section World.
Context {RT : Runtime}.

(** A record reduced to label, amount and category, as the summary and
    advisor prompts embed it. *)
Definition Digest : Type := (jsstring * num * jsstring)%type.

(** The variable part of each [ai.models.generateContent] request. *)
Inductive Request : Type :=
| ReqParse (text memoryContext : jsstring)
| ReqVision (base64Image : option jsstring) (mimeType : jsstring)
| ReqSummary (queryText : jsstring) (dataSummary : list Digest)
| ReqAdvisor (dataSummary : list Digest).

(** The request is rejected, or answers with [response.text]. *)
Inductive Reply : Type :=
| Rejected
| Response (text : option jsstring).

(** The oracles: what the browser, Firebase and the language model answer.
    Those indexed by [nat] are asked with the running count of oracle calls. *)
Record Env : Type := mkEnv {
  API_KEY : bool;                       (* [process.env.API_KEY] is truthy *)
  firebase : bool;                      (* [IS_FIREBASE_CONFIGURED && db] *)
  generateContent : Request -> Reply;
  JSON_parse : jsstring -> option (list Expense);   (* [None]: it throws *)
  readAsDataURL : File -> option jsstring;          (* [None]: [onerror] *)
  Date_now : nat -> Z;
  randomUUID : nat -> jsstring;
  write_ok : nat -> bool;               (* [setItem], [addDoc], [deleteDoc] *)
  new_doc_id : nat -> jsstring;
  serverTimestamp : nat -> option Timestamp
}.

(** The slot of [localStorage] under [LOCAL_STORAGE_KEY]. *)
Inductive Slot : Type :=
| Absent
| Corrupt
| Stored (data : list Expense).

(** A Firestore document: its id and its fields. *)
Record Doc : Type := mkDoc {
  doc_id : jsstring;
  doc_data : Expense
}.

Inductive Event : Type :=
| EvStatus (s : AgentStatus)
| EvProcessing (b : bool)
| EvFileRead (f : File)
| EvGenerate (r : Request)
| EvAddExpense (uid : jsstring) (e : Expense) (originalText : jsstring)
| EvAwaitAll (n : nat)
| EvDispatch
| EvCallback (data : list Expense)
| EvConsoleError.

Record World : Type := mkWorld {
  (* the state hooks of [App] *)
  user : option jsstring;
  expenses : list Expense;
  messages : list Message;
  input : jsstring;
  selectedImage : option File;
  imagePreview : option jsstring;
  isProcessing : bool;
  agentStatus : AgentStatus;
  (* the two backends *)
  localStorage : Slot;
  firestore : jsstring -> list Doc;
  (* bookkeeping of the model *)
  ticks : nat;
  trace : list Event
}.

Definition setExpenses (v : list Expense) (w : World) : World :=
  mkWorld (user w) v (messages w) (input w) (selectedImage w)
          (imagePreview w) (isProcessing w) (agentStatus w) (localStorage w)
          (firestore w) (ticks w) (trace w).

Definition setMessages (f : list Message -> list Message) (w : World)
  : World :=
  mkWorld (user w) (expenses w) (f (messages w)) (input w) (selectedImage w)
          (imagePreview w) (isProcessing w) (agentStatus w) (localStorage w)
          (firestore w) (ticks w) (trace w).

Definition setInput (v : jsstring) (w : World) : World :=
  mkWorld (user w) (expenses w) (messages w) v (selectedImage w)
          (imagePreview w) (isProcessing w) (agentStatus w) (localStorage w)
          (firestore w) (ticks w) (trace w).

Definition setSelectedImage (v : option File) (w : World) : World :=
  mkWorld (user w) (expenses w) (messages w) (input w) v
          (imagePreview w) (isProcessing w) (agentStatus w) (localStorage w)
          (firestore w) (ticks w) (trace w).

Definition setImagePreview (v : option jsstring) (w : World) : World :=
  mkWorld (user w) (expenses w) (messages w) (input w) (selectedImage w)
          v (isProcessing w) (agentStatus w) (localStorage w)
          (firestore w) (ticks w) (trace w).

Definition put_isProcessing (v : bool) (w : World) : World :=
  mkWorld (user w) (expenses w) (messages w) (input w) (selectedImage w)
          (imagePreview w) v (agentStatus w) (localStorage w)
          (firestore w) (ticks w) (trace w).

Definition put_agentStatus (v : AgentStatus) (w : World) : World :=
  mkWorld (user w) (expenses w) (messages w) (input w) (selectedImage w)
          (imagePreview w) (isProcessing w) v (localStorage w)
          (firestore w) (ticks w) (trace w).

Definition put_localStorage (v : Slot) (w : World) : World :=
  mkWorld (user w) (expenses w) (messages w) (input w) (selectedImage w)
          (imagePreview w) (isProcessing w) (agentStatus w) v
          (firestore w) (ticks w) (trace w).

Definition put_firestore (v : jsstring -> list Doc) (w : World) : World :=
  mkWorld (user w) (expenses w) (messages w) (input w) (selectedImage w)
          (imagePreview w) (isProcessing w) (agentStatus w) (localStorage w)
          v (ticks w) (trace w).

Definition put_ticks (v : nat) (w : World) : World :=
  mkWorld (user w) (expenses w) (messages w) (input w) (selectedImage w)
          (imagePreview w) (isProcessing w) (agentStatus w) (localStorage w)
          (firestore w) v (trace w).

Definition put_trace (v : list Event) (w : World) : World :=
  mkWorld (user w) (expenses w) (messages w) (input w) (selectedImage w)
          (imagePreview w) (isProcessing w) (agentStatus w) (localStorage w)
          (firestore w) (ticks w) v.

(* ------------------------------------------------------------------ *)
(** *** Completions and the monad of statements *)

(** How a statement completes: normally, by [return], or by throwing (for an
    [async] function: the promise it returned is rejected).  Every awaited
    call of the model settles. *)
Inductive Completion (A : Type) : Type :=
| Normal (a : A)
| Return
| Throw.
Arguments Normal {A} a.
Arguments Return {A}.
Arguments Throw {A}.

Definition M (A : Type) : Type := World -> Completion A * World.

Definition ret {A} (a : A) : M A := fun w => (Normal a, w).

Definition bind {A B} (m : M A) (k : A -> M B) : M B :=
  fun w =>
    match m w with
    | (Normal a, w') => k a w'
    | (Return, w') => (Return, w')
    | (Throw, w') => (Throw, w')
    end.

Definition throw {A} : M A := fun w => (Throw, w).
Definition return_ {A} : M A := fun w => (Return, w).
Definition get_state : M World := fun w => (Normal w, w).
Definition modify (f : World -> World) : M unit := fun w => (Normal tt, f w).

Definition emit (e : Event) : M unit :=
  modify (fun w => put_trace (trace w ++ [e]) w).

(** The index of the next oracle call. *)
Definition tick : M nat :=
  fun w => (Normal (ticks w), put_ticks (S (ticks w)) w).

(** [try { body } catch { handler } finally { fin }]. *)
Definition try_catch_finally {A} (body handler : M A) (fin : M unit) : M A :=
  fun w =>
    let (c1, w1) := body w in
    let (c2, w2) := match c1 with
                    | Throw => handler w1
                    | _ => (c1, w1)
                    end in
    let (c3, w3) := fin w2 in
    match c3 with
    | Normal _ => (c2, w3)
    | Return => (Return, w3)
    | Throw => (Throw, w3)
    end.

(** Calling an [async] function: a [return] inside resolves its promise. *)
Definition async (m : M unit) : M unit :=
  fun w =>
    match m w with
    | (Return, w') => (Normal tt, w')
    | r => r
    end.

(** Calling an [async] function without awaiting it: the call runs and hands
    back a promise, here whether it is fulfilled. *)
Definition promise_of (m : M unit) : M bool :=
  fun w =>
    match m w with
    | (Throw, w') => (Normal false, w')
    | (_, w') => (Normal true, w')
    end.

End World.

Arguments Normal {A} a.
Arguments Return {A}.
Arguments Throw {A}.

Declare Scope stmt_scope.
Delimit Scope stmt_scope with stmt.
Notation "x <- m ;; k" := (bind m (fun x => k))
  (at level 61, m at next level, right associativity) : stmt_scope.
Notation "m ;; k" := (bind m (fun _ => k))
  (at level 61, right associativity) : stmt_scope.

Local Open Scope stmt_scope.

Section Services.
Context {RT : Runtime}.
Variable env : Env.

Definition console_error : M unit := emit EvConsoleError.

(** [Date.now()] *)
Definition now : M Z := (n <- tick ;; ret (Date_now env n)).

(* ================================================================== *)
(** ** [services/geminiService.ts], the agents *)

Definition parse_reply (r : Reply) : M (list Expense) :=
  match r with
  | Rejected => console_error ;; ret []
  | Response None => ret []
  | Response (Some jsonText) =>
      if negb (truthy jsonText) then ret []
      else match JSON_parse env jsonText with
           | Some l => ret l
           | None => console_error ;; ret []
           end
  end.

Definition runParsingAgent (text memoryContext : jsstring)
  : M (list Expense) :=
  if negb (API_KEY env) then ret []
  else
    let req := ReqParse text memoryContext in
    emit (EvGenerate req) ;;
    parse_reply (generateContent env req).

Definition runVisionAgent (base64Image : option jsstring)
           (mimeType : jsstring) : M (list Expense) :=
  if negb (API_KEY env) then ret []
  else
    let req := ReqVision base64Image mimeType in
    emit (EvGenerate req) ;;
    parse_reply (generateContent env req).

Definition digest (e : Expense) : Digest := (item e, amount e, category e).

Definition runSummaryAgent (queryText : jsstring)
           (expenseData : list Expense) : M jsstring :=
  if negb (API_KEY env) then ret (lit "API Key missing.")
  else
    let dataSummary := List.map digest (firstn 100 expenseData) in
    let req := ReqSummary queryText dataSummary in
    emit (EvGenerate req) ;;
    match generateContent env req with
    | Rejected =>
        console_error ;; ret (lit "Service temporarily unavailable.")
    | Response None => ret (lit "I couldn't generate a summary.")
    | Response (Some t) => ret (or_else t (lit "I couldn't generate a summary."))
    end.

(** [s.split(sep)] *)
Fixpoint split_at (sep : code_unit) (s : jsstring) : list jsstring :=
  match s with
  | [] => [[]]
  | c :: s' =>
      if cu_eqb c sep then [] :: split_at sep s'
      else match split_at sep s' with
           | f :: fs => (c :: f) :: fs
           | [] => [[c]]
           end
  end.

(** [result.split(',')[1]] *)
Definition base64_of (result : jsstring) : option jsstring :=
  nth_error (split_at 44%N result) 1.

(** The promise is rejected on [onerror]; otherwise it resolves with the
    field after the first comma of the data URL ([undefined] without one). *)
Definition fileToBase64 (file : File) : M (option jsstring) :=
  emit (EvFileRead file) ;;
  match readAsDataURL env file with
  | None => throw
  | Some result => ret (base64_of result)
  end.

(* ================================================================== *)
(** ** [services/firebaseService.ts] *)

(** [JSON.parse(JSON.stringify(e))]: members that are functions are left out
    (finite numbers and strings are kept as they are). *)
Definition jsonify_timestamp (t : Timestamp) : Timestamp :=
  mkTimestamp (seconds t) (nanoseconds t) None.

Definition jsonify (e : Expense) : Expense :=
  mkExpense (id e) (item e) (amount e) (category e)
            (option_map jsonify_timestamp (createdAt e)) (originalText e).

(** [raw ? JSON.parse(raw) : []], and [[]] when parsing throws: what is read
    back is plain data. *)
Definition getLocalData_of (s : Slot) : list Expense :=
  match s with
  | Stored data => List.map jsonify data
  | Absent | Corrupt => []
  end.

Definition getLocalData : M (list Expense) :=
  (w <- get_state ;; ret (getLocalData_of (localStorage w))).

(** [Array.prototype.sort] with a comparator: the sort is stable, [x] moves
    behind [y] only when [cmp x y > 0]. *)
Fixpoint insert_sorted (cmp : Expense -> Expense -> Z) (x : Expense)
         (l : list Expense) : list Expense :=
  match l with
  | [] => [x]
  | y :: l' =>
      if (0 <? cmp x y)%Z then y :: insert_sorted cmp x l' else x :: l
  end.

Definition Array_sort (cmp : Expense -> Expense -> Z) (l : list Expense)
  : list Expense :=
  fold_right (insert_sorted cmp) [] l.

(** [a.createdAt?.toMillis ? a.createdAt.toMillis() : 0]; [clock] is what
    [Date.now()] answers when the accessor asks for it. *)
Definition cloud_time (clock : Z) (a : Expense) : Z :=
  match createdAt a with
  | Some t =>
      match toMillis t with
      | Some (MillisAt ms) => ms
      | Some MillisNow => clock
      | None => 0
      end
  | None => 0
  end.

(** [a.createdAt?.seconds ? a.createdAt.seconds * 1000 : 0] *)
Definition local_time (a : Expense) : Z :=
  match createdAt a with
  | Some t => if (seconds t =? 0)%Z then 0%Z else (seconds t * 1000)%Z
  | None => 0
  end.

Definition desc (time : Expense -> Z) (a b : Expense) : Z :=
  (time b - time a)%Z.

(** [{ id: d.id, ...d.data() }] *)
Definition of_doc (d : Doc) : Expense :=
  let data := doc_data d in
  mkExpense (match id data with Some i => Some i | None => Some (doc_id d) end)
            (item data) (amount data) (category data) (createdAt data)
            (originalText data).

(** The callback [App] passes to [subscribeToExpenses]. *)
Definition callback (data : list Expense) : M unit :=
  emit (EvCallback data) ;; modify (setExpenses data).

(** The [onSnapshot] listener, run on a snapshot of the user's collection;
    the clock is only read by an accessor that asks for it. *)
Definition onSnapshot_listener (docs : list Doc) : M unit :=
  w <- get_state ;;
  let clock := Date_now env (ticks w) in
  let loaded := List.map of_doc docs in
  callback (Array_sort (desc (cloud_time clock)) loaded).

(** [load] of the local branch. *)
Definition load : M unit :=
  data <- getLocalData ;;
  callback (Array_sort (desc local_time) data).

(** The local branch calls [load] at once; the cloud branch registers the
    listener, which Firestore then calls with snapshots. *)
Definition subscribeToExpenses (uid : jsstring) : M unit :=
  if firebase env then ret tt else load.

(** [setItem] of the serialised list may throw; the event reaches the
    listener [App] registered. *)
Definition saveLocalData (data : list Expense) : M unit :=
  n <- tick ;;
  if write_ok env n then
    modify (put_localStorage (Stored (List.map jsonify data))) ;;
    emit EvDispatch ;;
    load
  else throw.

Definition update_collection (uid : jsstring) (f : list Doc -> list Doc)
           (fs : jsstring -> list Doc) : jsstring -> list Doc :=
  fun u => if str_eqb u uid then f (fs u) else fs u.

Definition addExpense (uid : jsstring) (expense : Expense)
           (text : jsstring) : M unit :=
  emit (EvAddExpense uid expense text) ;;
  if firebase env then
    n <- tick ;;
    if write_ok env n then
      let data := mkExpense (id expense) (item expense) (amount expense)
                            (category expense) (serverTimestamp env n)
                            (Some text) in
      modify (fun w =>
        put_firestore
          (update_collection uid
             (fun docs => docs ++ [mkDoc (new_doc_id env n) data])
             (firestore w)) w)
    else throw
  else
    current <- getLocalData ;;
    u <- tick ;;
    t <- now ;;
    let newExpense :=
      mkExpense (Some (randomUUID env u)) (item expense) (amount expense)
                (category expense)
                (Some (mkTimestamp (t / 1000) 0 (Some MillisNow)))
                (Some text) in
    saveLocalData (current ++ [newExpense]).

Definition has_id (expenseId : jsstring) (e : Expense) : bool :=
  match id e with
  | Some i => str_eqb i expenseId
  | None => false
  end.

Definition removeExpense (uid expenseId : jsstring) : M unit :=
  if firebase env then
    n <- tick ;;
    if write_ok env n then
      modify (fun w =>
        put_firestore
          (update_collection uid
             (filter (fun d => negb (str_eqb (doc_id d) expenseId)))
             (firestore w)) w)
    else throw
  else
    current <- getLocalData ;;
    let filtered := filter (fun e => negb (has_id expenseId e)) current in
    saveLocalData filtered.

End Services.

(* ================================================================== *)
(** ** [App]: the send handler *)

Section App.
Context {RT : Runtime}.
Variable env : Env.

(** The alternatives of the regular expression of [handleSend]. *)
Definition lead_words : list jsstring :=
  List.map lit [ "how"; "what"; "show"; "list"; "sum"; "calculate";
                 "analyze"; "total"; "spent" ]%string.

(** [/^(how|what|show|list|sum|calculate|analyze|total|spent)/i.test(text)] *)
Definition isQuestion (userText : jsstring) : bool :=
  test_anchored_alt_i lead_words userText.

Definition is_some {A} (o : option A) : bool :=
  match o with Some _ => true | None => false end.

(** [user?.uid || 'local_user'] *)
Definition uid_of (u : option jsstring) : jsstring :=
  match u with
  | Some i => or_else i (lit "local_user")
  | None => lit "local_user"
  end.

(** [userImagePreview || undefined] *)
Definition preview_or_undefined (p : option jsstring) : option jsstring :=
  match p with
  | Some s => if truthy s then Some s else None
  | None => None
  end.

Definition setIsProcessing (b : bool) : M unit :=
  emit (EvProcessing b) ;; modify (put_isProcessing b).

Definition setAgentStatus (s : AgentStatus) : M unit :=
  emit (EvStatus s) ;; modify (put_agentStatus s).

Definition clearImage : M unit :=
  modify (setSelectedImage None) ;; modify (setImagePreview None).

(** [setMessages(prev => [...prev, m])] *)
Definition push_message (m : Message) : M unit :=
  modify (setMessages (fun prev => prev ++ [m])).

Definition bot (t : Z) (text : jsstring) (data : option (list Expense))
  : Message :=
  mkMessage (inr (t + 1)%Z) bot_msg text None data.

Definition say (text : jsstring) (data : option (list Expense)) : M unit :=
  t <- now env ;; push_message (bot t text data).

(** [extractedExpenses.map(exp => addExpense(uid, exp, text))]: every call
    is issued, in order, and leaves its promise. *)
Fixpoint issue_all (uid text : jsstring) (l : list Expense)
  : M (list bool) :=
  match l with
  | [] => ret []
  | exp :: l' =>
      p <- promise_of (addExpense env uid exp text) ;;
      ps <- issue_all uid text l' ;;
      ret (p :: ps)
  end.

(** [await Promise.all(promises)]: one join, rejected when a promise is. *)
Definition Promise_all (promises : list bool) : M unit :=
  emit (EvAwaitAll (List.length promises)) ;;
  if forallb (fun p => p) promises then ret tt else throw.

Definition total_of (l : list Expense) : num :=
  fold_left (fun sum item => num_add sum (amount item)) l num_zero.

Definition ledger_text (total : num) : jsstring :=
  lit "Ledger updated. Total: " ++ CURRENCY_SYMBOL ++ lit " "
      ++ num_toLocaleString total.

Definition no_image_text : jsstring :=
  lit "I couldn't identify any clear transactions in that image.".

Definition no_expense_text : jsstring :=
  lit "I couldn't detect a valid expense transaction.".

Definition error_text : jsstring :=
  lit "System encountered an error processing your request.".

(** Step A of the [try] block. *)
Definition vision_step (userImage : option File) : M (list Expense) :=
  match userImage with
  | Some file =>
      setAgentStatus vision ;;
      base64 <- fileToBase64 env file ;;
      visionResults <- runVisionAgent env base64 (file_type file) ;;
      ret visionResults
  | None => ret []
  end.

(** Step B of the [try] block; [expenses0] is the record set the handler
    closed over. *)
Definition text_step (userText : jsstring) (expenses0 : list Expense)
           (extractedExpenses : list Expense) : M (list Expense) :=
  if truthy (trim userText) then
    if isQuestion userText then
      setAgentStatus summary ;;
      answer <- runSummaryAgent env userText expenses0 ;;
      say answer None ;;
      setIsProcessing false ;;
      setAgentStatus idle ;;
      return_
    else
      setAgentStatus parsing ;;
      let memoryContext := buildMemoryContext expenses0 in
      textResults <- runParsingAgent env userText memoryContext ;;
      ret (extractedExpenses ++ textResults)
  else ret extractedExpenses.

(** Step C of the [try] block. *)
Definition commit_step (userText : jsstring) (userImage : option File)
           (user0 : option jsstring) (extractedExpenses : list Expense)
  : M unit :=
  if (0 <? List.length extractedExpenses)%nat then
    setAgentStatus ledger ;;
    let uid := uid_of user0 in
    promises <- issue_all uid (or_else userText (lit "Receipt Scan"))
                          extractedExpenses ;;
    Promise_all promises ;;
    let total := total_of extractedExpenses in
    say (ledger_text total) (Some extractedExpenses)
  else if negb (truthy userText) && is_some userImage then
    say no_image_text None
  else if truthy userText && negb (is_some userImage) then
    say no_expense_text None
  else ret tt.

Definition handleSend_body : M unit :=
  w0 <- get_state ;;
  if (negb (truthy (trim (input w0))) && negb (is_some (selectedImage w0)))
     || isProcessing w0
  then return_
  else
    let userText := input w0 in
    let userImage := selectedImage w0 in
    let userImagePreview := imagePreview w0 in
    modify (setInput []) ;;
    clearImage ;;
    t <- now env ;;
    push_message (mkMessage (inr t) user_msg userText
                            (preview_or_undefined userImagePreview) None) ;;
    setIsProcessing true ;;
    try_catch_finally
      (extracted <- vision_step userImage ;;
       extracted' <- text_step userText (expenses w0) extracted ;;
       commit_step userText userImage (user w0) extracted')
      (console_error ;; say error_text None)
      (setIsProcessing false ;; setAgentStatus idle).

Definition handleSend : M unit := async handleSend_body.

(** The guard of [handleSend]: the pass runs. *)
Definition accepts (w : World) : bool :=
  negb ((negb (truthy (trim (input w))) && negb (is_some (selectedImage w)))
        || isProcessing w).

(** [handleDeleteExpense]: the promise of [removeExpense] is dropped. *)
Definition handleDeleteExpense (expenseId : jsstring) : M unit :=
  w <- get_state ;;
  _ <- promise_of (async (removeExpense env (uid_of (user w)) expenseId)) ;;
  ret tt.

End App.

(* ================================================================== *)
(** ** [Dashboard]: the rows of the transaction list *)

Section Dashboard.
Context {RT : Runtime}.

(** [expense.createdAt?.toMillis
       ? new Date(expense.createdAt.toMillis()).toLocaleDateString()
       : 'Just now']: the milliseconds whose date the row shows, and [None]
    for the label ['Just now']; [clock] is what [Date.now()] answers when the
    accessor asks for it. *)
Definition date_shown (clock : Z) (expense : Expense) : option Z :=
  match createdAt expense with
  | Some t =>
      match toMillis t with
      | Some (MillisAt ms) => Some ms
      | Some MillisNow => Some clock
      | None => None
      end
  | None => None
  end.

End Dashboard.

(* ================================================================== *)
(** ** Scenarios: a concrete runtime, environments and worlds *)

Module Scenario.

(** Whole numbers as amounts, printed in decimal without grouping;
    ASCII-only case tables. *)
Definition Zrt : Runtime :=
  {| num := Z; num_zero := 0%Z; num_add := Z.add;
     num_toLocaleString :=
       fun z => lit (DecimalString.NilZero.string_of_int (Z.to_int z));
     upper_unit := fun c => c;
     lower_string := fun s => s |}.

Definition expense (i : string) (a : Z) (c : string) : @Expense Zrt :=
  @mkExpense Zrt None (lit i) a (lit c) None None.

Definition receipt : File := mkFile (lit "image/png") (lit "receipt.png").

(** The language model answers every request with the text [[]]; the parser
    reads it as the empty array. *)
Definition silent_model (key : bool) : @Env Zrt :=
  @mkEnv Zrt key false
         (fun _ => Response (Some (lit "[]")))
         (fun _ => Some [])
         (fun _ => Some (lit "data:image/png;base64,AAAA"))
         (fun n => (1000 * Z.of_nat n)%Z)
         (fun n => lit "uuid-" ++ [N.of_nat n])
         (fun _ => true)
         (fun n => lit "doc-" ++ [N.of_nat n])
         (fun _ => None).

(** The language model reads one purchase out of every request. *)
Definition one_purchase : @Env Zrt :=
  @mkEnv Zrt true false
         (fun _ => Response (Some (lit "[{...}]")))
         (fun _ => Some [expense "dinner" 500 "Food"])
         (fun _ => Some (lit "data:image/png;base64,AAAA"))
         (fun n => (1000 * Z.of_nat n)%Z)
         (fun n => lit "uuid-" ++ [N.of_nat n])
         (fun _ => true)
         (fun n => lit "doc-" ++ [N.of_nat n])
         (fun _ => None).

(** The language model reads one purchase, and every write is refused. *)
Definition refused_writes : @Env Zrt :=
  @mkEnv Zrt true false
         (fun _ => Response (Some (lit "[{...}]")))
         (fun _ => Some [expense "dinner" 500 "Food"])
         (fun _ => Some (lit "data:image/png;base64,AAAA"))
         (fun n => (1000 * Z.of_nat n)%Z)
         (fun n => lit "uuid-" ++ [N.of_nat n])
         (fun _ => false)
         (fun n => lit "doc-" ++ [N.of_nat n])
         (fun _ => None).

(** The same with the cloud backend. *)
Definition cloud_model : @Env Zrt :=
  @mkEnv Zrt true true
         (fun _ => Response (Some (lit "[]")))
         (fun _ => Some [])
         (fun _ => Some (lit "data:image/png;base64,AAAA"))
         (fun n => (1000 * Z.of_nat n)%Z)
         (fun n => lit "uuid-" ++ [N.of_nat n])
         (fun _ => true)
         (fun n => lit "doc-" ++ [N.of_nat n])
         (fun n => Some (mkTimestamp 7 0 (Some (MillisAt 7000)))).

(** [App] right after mounting, with the given input and image. *)
Definition fresh (text : string) (image : option File) : @World Zrt :=
  @mkWorld Zrt (Some (lit "local_user")) [] [] (lit text) image
           (option_map (fun _ => lit "data:image/png;base64,AAAA") image)
           false idle Absent (fun _ => []) 0 [].

(** A stored record with its id and the second of its creation. *)
Definition stamped (i : string) (a : Z) (c : string) (secs : Z)
  : @Expense Zrt :=
  @mkExpense Zrt (Some (lit i)) (lit i) a (lit c)
             (Some (mkTimestamp secs 0 None)) (Some (lit i)).

(** The same record as a Firestore document. *)
Definition stamped_doc (i : string) (a : Z) (c : string) (secs : Z)
  : @Doc Zrt :=
  @mkDoc Zrt (lit i)
         (@mkExpense Zrt None (lit i) a (lit c)
            (Some (mkTimestamp secs 0 (Some (MillisAt (secs * 1000)))))
            (Some (lit i))).

(** [App] over a local store that holds [data]. *)
Definition with_storage (data : list (@Expense Zrt)) : @World Zrt :=
  @mkWorld Zrt (Some (lit "local_user")) [] [] [] None None
           false idle (Stored data) (fun _ => []) 0 [].

(** [App] over a cloud store whose only collection holds [docs]. *)
Definition with_collection (docs : list (@Doc Zrt)) : @World Zrt :=
  @mkWorld Zrt (Some (lit "local_user")) [] [] [] None None
           false idle Absent (fun _ => docs) 0 [].

End Scenario.

(* ================================================================== *)
(** * The vocabulary of the properties *)

Section Vocabulary.
Context {RT : Runtime}.
Variable env : Env.

(** ** Texts *)

Definition lower_letter (c : code_unit) : Prop := (97 <= c <= 122)%N.

(** The text starts with [w], letter case of A-Z apart. *)
Definition starts_with_nocase (w text : jsstring) : Prop :=
  exists pre rest, text = pre ++ rest /\ List.map ascii_lower pre = w.

(** ** The memory context *)

(** The entries [buildMemoryContext] renders. *)
Definition memory_entries (expenses : list Expense)
  : list (jsstring * jsstring) :=
  firstn 50 (Object_entries (habitMap_of expenses)).

(** The mapping in the words of the specification: from the lowercased item
    label to the first category recorded for it, the first 50 distinct labels
    in history order. *)
Fixpoint spec_first_categories (seen : list jsstring) (l : list Expense)
  : list (jsstring * jsstring) :=
  match l with
  | [] => []
  | e :: l' =>
      let k := toLowerCase (item e) in
      if existsb (str_eqb k) seen then spec_first_categories seen l'
      else (k, category e) :: spec_first_categories (seen ++ [k]) l'
  end.

Definition spec_memory (expenses : list Expense)
  : list (jsstring * jsstring) :=
  firstn 50 (spec_first_categories [] expenses).

(** The record counts: its label and its category are not empty. *)
Definition counted (e : Expense) : bool :=
  truthy (item e) && truthy (category e).

(** The key of a record: its label lowercased, then trimmed. *)
Definition label (e : Expense) : jsstring := trim (toLowerCase (item e)).

(** A key that is no array index and no property name of
    [Object.prototype]. *)
Definition plain_key (k : jsstring) : Prop :=
  array_index k = None /\ inherited k = false.

(** The key is not among those seen. *)
Definition notin (seen : list jsstring) (k : jsstring) : bool :=
  negb (existsb (str_eqb k) seen).

(** The distinct keys of a list, in the order of their first occurrence. *)
Fixpoint dedup (l : list jsstring) : list jsstring :=
  match l with
  | [] => []
  | k :: l' => k :: filter (fun k' => negb (str_eqb k' k)) (dedup l')
  end.

(** The entries of the counted records whose key is not in [seen], first
    occurrence first. *)
Fixpoint first_seen (seen : list jsstring) (l : list Expense)
  : list (jsstring * jsstring) :=
  match l with
  | [] => []
  | e :: l' =>
      if counted e && negb (existsb (str_eqb (label e)) seen)
      then (label e, category e) :: first_seen (seen ++ [label e]) l'
      else first_seen seen l'
  end.

(** The first counted record of key [k]. *)
Definition first_record (k : jsstring) (l : list Expense) : option Expense :=
  find (fun e => counted e && str_eqb k (label e)) l.

(** ** What the agents return and log *)

(** Appending to the trace. *)
Definition log (evs : list Event) (w : World) : World :=
  put_trace (trace w ++ evs) w.

(** What [parse_reply] returns and logs. *)
Definition decode (r : Reply) : list Expense * list Event :=
  match r with
  | Rejected => ([], [EvConsoleError])
  | Response None => ([], [])
  | Response (Some jsonText) =>
      if negb (truthy jsonText) then ([], [])
      else match JSON_parse env jsonText with
           | Some l => (l, [])
           | None => ([], [EvConsoleError])
           end
  end.

(** What an extraction agent returns and logs for its request. *)
Definition agent_answer (req : Request) : list Expense * list Event :=
  if negb (API_KEY env) then ([], [])
  else let (l, evs) := decode (generateContent env req) in
       (l, EvGenerate req :: evs).

(** What the summary agent returns and logs. *)
Definition summary_answer (q : jsstring) (data : list Expense)
  : jsstring * list Event :=
  if negb (API_KEY env) then (lit "API Key missing.", [])
  else
    let req := ReqSummary q (List.map digest (firstn 100 data)) in
    match generateContent env req with
    | Rejected =>
        (lit "Service temporarily unavailable.",
         [EvGenerate req; EvConsoleError])
    | Response None => (lit "I couldn't generate a summary.", [EvGenerate req])
    | Response (Some t) =>
        (or_else t (lit "I couldn't generate a summary."), [EvGenerate req])
    end.

(** ** The parts of [handleSend] *)

(** The [finally] block. *)
Definition restore : M unit := (setIsProcessing false ;; setAgentStatus idle).

(** The [catch] block. *)
Definition catch_block : M unit := (console_error ;; say env error_text None).

(** The [try] block of a pass started in world [w]. *)
Definition try_block (w : World) : M unit :=
  extracted <- vision_step env (selectedImage w) ;;
  extracted' <- text_step env (input w) (expenses w) extracted ;;
  commit_step env (input w) (selectedImage w) (user w) extracted'.

(** The message that echoes the user's turn. *)
Definition echo (w : World) : Message :=
  mkMessage (inr (Date_now env (ticks w))) user_msg (input w)
            (preview_or_undefined (imagePreview w)) None.

(** The world when the [try] block is entered. *)
Definition started (w : World) : World :=
  mkWorld (user w) (expenses w) (messages w ++ [echo w])
          [] None None true (agentStatus w) (localStorage w) (firestore w)
          (S (ticks w)) (trace w ++ [EvProcessing true]).

(** The turn takes the summary path. *)
Definition question_turn (w : World) : bool :=
  truthy (trim (input w)) && isQuestion (input w).

(** The candidates of the vision step and of the text step. *)
Definition vision_candidates (w : World) : list Expense :=
  match selectedImage w with
  | Some f =>
      match readAsDataURL env f with
      | Some url => fst (agent_answer (ReqVision (base64_of url) (file_type f)))
      | None => []
      end
  | None => []
  end.

Definition text_candidates (w : World) : list Expense :=
  if truthy (trim (input w)) && negb (isQuestion (input w))
  then fst (agent_answer
              (ReqParse (input w) (buildMemoryContext (expenses w))))
  else [].

Definition candidates (w : World) : list Expense :=
  vision_candidates w ++ text_candidates w.

(** The image of the turn, if any, can be read. *)
Definition image_readable (w : World) : Prop :=
  forall f, selectedImage w = Some f -> readAsDataURL env f <> None.

(** The reply of a pass whose candidate list is empty. *)
Definition empty_reply (w : World) : list Message :=
  let t := Date_now env (S (ticks w)) in
  if negb (truthy (input w)) && is_some (selectedImage w)
  then [bot t no_image_text None]
  else if truthy (input w) && negb (is_some (selectedImage w))
       then [bot t no_expense_text None]
       else [].

(** Every write to a backend goes through. *)
Definition all_writes_succeed : Prop := forall n, write_ok env n = true.

(** ** Traces *)

Definition is_commit (e : Event) : bool :=
  match e with EvAddExpense _ _ _ => true | _ => false end.

Definition is_remote (e : Event) : bool :=
  match e with EvGenerate _ => true | _ => false end.

Definition is_join (e : Event) : bool :=
  match e with EvAwaitAll _ => true | _ => false end.

(** ** Stores and deliveries *)

(** The stored record set of a user, as the subscription loads it.  In
    local mode this is the stored array, in its order.  In cloud mode the list
    is in the order of the create calls, which the query of
    [subscribeToExpenses] (it has no [orderBy]) does not promise: there only
    the records up to their order stand for the collection. *)
Definition records (uid : jsstring) (w : World) : list Expense :=
  if firebase env then List.map of_doc (firestore w uid)
  else getLocalData_of (localStorage w).

(** The record set a callback of the subscription is given, in world [w]
    when the clock shows [clock]. *)
Definition delivered (clock : Z) (uid : jsstring) (w : World)
  : list Expense :=
  if firebase env
  then Array_sort (desc (cloud_time clock)) (List.map of_doc (firestore w uid))
  else Array_sort (desc local_time) (getLocalData_of (localStorage w)).

(** No stored record of the user goes by [expenseId]. *)
Definition id_absent (uid expenseId : jsstring) (w : World) : Prop :=
  if firebase env
  then Forall (fun d => str_eqb (doc_id d) expenseId = false) (firestore w uid)
  else Forall (fun e => has_id expenseId e = false)
              (getLocalData_of (localStorage w)).

(** Each record is at least as recent as those behind it. *)
Definition descending (time : Expense -> Z) (l : list Expense) : Prop :=
  StronglySorted (fun a b => (time a >= time b)%Z) l.

(** Each record is more recent than those behind it. *)
Definition strictly_descending (time : Expense -> Z) (l : list Expense)
  : Prop :=
  StronglySorted (fun a b => (time a > time b)%Z) l.

(** The record the local adapter stores for candidate [e] in world [w]. *)
Definition local_record (w : World) (e : Expense) (text : jsstring)
  : Expense :=
  mkExpense (Some (randomUUID env (ticks w))) (item e) (amount e)
            (category e)
            (Some (mkTimestamp (Date_now env (S (ticks w)) / 1000) 0 None))
            (Some text).

End Vocabulary.

(** The calls of the adapter's create operation in a trace, in order. *)
Abbreviation commits := (filter is_commit).

(** The requests sent to the language model in a trace, in order. *)
Abbreviation remote_calls := (filter is_remote).

Arguments lit : simpl never.
Arguments base64_of : simpl never.
Arguments trim : simpl never.
Arguments isQuestion : simpl never.
Arguments buildMemoryContext : simpl never.


(* ================================================================== *)
(** * The rest of the services and of the components *)

Section Coverage.
Context {RT : Runtime}.
Variable env : Env.

(** ** [services/geminiService.ts]: the advisor agent

    The warning [console.warn] writes is not traced. *)
Definition runAdvisorAgent (expenseData : list Expense) : M jsstring :=
  if (List.length expenseData =? 0)%nat
  then ret (lit "Start adding expenses to get AI insights!")
  else if negb (API_KEY env)
  then ret (lit "Add your API Key to enable AI insights.")
  else
    let dataSummary := List.map digest (firstn 30 expenseData) in
    let req := ReqAdvisor dataSummary in
    emit (EvGenerate req) ;;
    match generateContent env req with
    | Rejected => ret (lit "Keep tracking your expenses to see patterns.")
    | Response None =>
        ret (lit "Tracking is the first step to financial freedom.")
    | Response (Some t) =>
        ret (or_else t (lit "Tracking is the first step to financial freedom."))
    end.

(** ** [App]: the tab and the advisor's tip *)

Inductive Tab : Type := chat | dashboard.

(** The two state hooks of [App] that the send handler does not touch. *)
Record Panel : Type := mkPanel {
  activeTab : Tab;
  advisorTip : option jsstring
}.

Definition is_dashboard (t : Tab) : bool :=
  match t with dashboard => true | chat => false end.

(** [!advisorTip] *)
Definition no_tip (p : Panel) : bool :=
  match advisorTip p with
  | Some s => negb (truthy s)
  | None => true
  end.

(** The advisor trigger, an effect of [activeTab], [expenses] and
    [advisorTip]; the promise of the agent is taken as settled, and its
    value set as the tip. *)
Definition advisor_effect (p : Panel) : M Panel :=
  w <- get_state ;;
  if is_dashboard (activeTab p) && (0 <? List.length (expenses w))%nat
     && no_tip p
  then
    tip <- runAdvisorAgent (expenses w) ;;
    ret (mkPanel (activeTab p) (Some tip))
  else ret p.

(** ** [components/ChatInterface.tsx] *)

(** The [disabled] attribute of the submit button. *)
Definition submit_disabled (w : World) : bool :=
  (negb (truthy (trim (input w))) && negb (is_some (selectedImage w)))
  || isProcessing w.

(** ** Vocabulary *)

(** The oracle index of the write of the [i]-th create call of a commit
    step that starts when the count is [t0]: the cloud branch asks one oracle
    per call, the local branch three (the id, the clock, the write). *)
Definition write_tick (t0 i : nat) : nat :=
  if firebase env then t0 + i else t0 + 3 * i + 2.

(** Whether each of [n] create calls is accepted. *)
Definition write_flags (t0 n : nat) : list bool :=
  List.map (fun i => write_ok env (write_tick t0 i)) (seq 0 n).

(** The elements whose flag is set. *)
Fixpoint select {A} (flags : list bool) (l : list A) : list A :=
  match flags, l with
  | b :: flags', x :: l' =>
      if b then x :: select flags' l' else select flags' l'
  | _, _ => []
  end.

(** The fields of [App] that the adapter never touches. *)
Definition same_app (w w' : World) : Prop :=
  user w' = user w /\ messages w' = messages w /\ input w' = input w /\
  selectedImage w' = selectedImage w /\ imagePreview w' = imagePreview w /\
  isProcessing w' = isProcessing w /\ agentStatus w' = agentStatus w.

(** In local mode, the record set [App] shows is the one the subscription
    would deliver now. *)
Definition in_sync (w : World) : Prop :=
  expenses w = Array_sort (desc local_time) (getLocalData_of (localStorage w)).

Definition is_status (e : Event) : bool :=
  match e with EvStatus _ => true | _ => false end.

(** The statuses set in a trace, in order. *)
Definition statuses (tr : list Event) : list AgentStatus :=
  flat_map (fun e => match e with EvStatus s => [s] | _ => [] end) tr.

(** What the vision step and the parsing step log, on a turn whose image
    can be read. *)
Definition vision_events (w : World) : list Event :=
  match selectedImage w with
  | Some f =>
      EvStatus vision :: EvFileRead f
      :: match readAsDataURL env f with
         | Some url =>
             snd (agent_answer env (ReqVision (base64_of url) (file_type f)))
         | None => []
         end
  | None => []
  end.

Definition parse_events (w : World) : list Event :=
  if truthy (trim (input w)) && negb (isQuestion (input w))
  then EvStatus parsing
       :: snd (agent_answer env
                 (ReqParse (input w) (buildMemoryContext (expenses w))))
  else [].

(** The status when the commit step is reached. *)
Definition extraction_status (w : World) : AgentStatus :=
  if truthy (trim (input w)) && negb (isQuestion (input w)) then parsing
  else if is_some (selectedImage w) then vision
  else agentStatus w.

(** The world when the commit step is reached. *)
Definition extracted_world (w : World) : World :=
  mkWorld (user w) (expenses w) (messages w ++ [echo env w])
          [] None None true (extraction_status w) (localStorage w)
          (firestore w) (S (ticks w))
          (trace w ++ EvProcessing true :: vision_events w ++ parse_events w).

(** The image of the turn cannot be read. *)
Definition image_unreadable (w : World) : Prop :=
  exists f, selectedImage w = Some f /\ readAsDataURL env f = None.

(** The reply of the commit step to the flags of its create calls. *)
Definition commit_reply (t : Z) (cands : list Expense) (flags : list bool)
  : Message :=
  if forallb (fun p => p) flags
  then bot t (ledger_text (total_of cands)) (Some cands)
  else bot t error_text None.

(** What a pass that got past the guard leaves: the input is cleared, the
    turn is echoed and answered by [reply], the statuses [sts] were set, and
    the user's record set has gained [kept]. *)
Definition pass_result (w w' : World) (reply : list Message)
           (sts : list AgentStatus) (kept : list Expense) : Prop :=
  input w' = [] /\ selectedImage w' = None /\ imagePreview w' = None /\
  user w' = user w /\ isProcessing w' = false /\ agentStatus w' = idle /\
  messages w' = messages w ++ echo env w :: reply /\
  (exists evs,
      trace w' = trace w ++ EvProcessing true :: evs /\ statuses evs = sts) /\
  List.map digest (records env (uid_of (user w)) w')
  = List.map digest (records env (uid_of (user w)) w) ++ List.map digest kept /\
  (firebase env = false -> in_sync w -> in_sync w') /\
  (firebase env = true -> expenses w' = expenses w).

(** Every own property of the object holds a non-empty string. *)
Definition values_truthy (o : props) : Prop :=
  forall k v, own_get k o = Some v -> truthy v = true.

(** The walks of the agent status that a pass can take. *)
Definition status_walks : list (list AgentStatus) :=
  [ [vision; idle];
    [parsing; idle]; [vision; parsing; idle];
    [vision; ledger; idle]; [parsing; ledger; idle];
    [vision; parsing; ledger; idle];
    [summary; idle; idle]; [vision; summary; idle; idle] ].

(** The statuses of the extraction steps. *)
Definition extraction_statuses (w : World) : list AgentStatus :=
  (if is_some (selectedImage w) then [vision] else [])
  ++ (if truthy (trim (input w)) && negb (isQuestion (input w))
      then [parsing] else []).

End Coverage.


(** ** More scenarios *)

Module Cases.
Import Scenario.

(** No file can be read. *)
Definition unreadable_files : @Env Zrt :=
  @mkEnv Zrt true false
         (fun _ => Response (Some (lit "[{...}]")))
         (fun _ => Some [expense "dinner" 500 "Food"])
         (fun _ => None)
         (fun n => (1000 * Z.of_nat n)%Z)
         (fun n => lit "uuid-" ++ [N.of_nat n])
         (fun _ => true)
         (fun n => lit "doc-" ++ [N.of_nat n])
         (fun _ => None).

(** The language model reads one purchase out of every request; the store
    accepts the first writes and refuses those from the fifth oracle call
    on. *)
Definition flaky_writes : @Env Zrt :=
  @mkEnv Zrt true false
         (fun _ => Response (Some (lit "[{...}]")))
         (fun _ => Some [expense "dinner" 500 "Food"])
         (fun _ => Some (lit "data:image/png;base64,AAAA"))
         (fun n => (1000 * Z.of_nat n)%Z)
         (fun n => lit "uuid-" ++ [N.of_nat n])
         (fun n => (n <? 5)%nat)
         (fun n => lit "doc-" ++ [N.of_nat n])
         (fun _ => None).

(** A store of two records. *)
Definition two_records : @World Zrt :=
  with_storage [stamped "tea" 40 "Food" 5; stamped "bus" 25 "Transport" 9].

(** Fifty records with fifty labels. *)
Definition fifty_habits : list (@Expense Zrt) :=
  List.map (fun n => @mkExpense Zrt None (lit "shop-" ++ [N.of_nat (97 + n)])
                       1%Z (lit "misc") None None)
           (seq 0 50).

End Cases.
(* ================================================================== *)
(** * Properties *)

(** ** Strings *)

Lemma str_eqb_eq (s t : jsstring) : str_eqb s t = true <-> s = t.
Proof.
  revert t; induction s as [|a s IH]; intros [|b t]; simpl;
    try (split; [discriminate | discriminate]); try tauto.
  unfold cu_eqb. rewrite andb_true_iff, N.eqb_eq, IH.
  split; [intros [-> ->]; reflexivity | intros H; injection H; auto].
Qed.

Lemma str_eqb_refl (s : jsstring) : str_eqb s s = true.
Proof. apply str_eqb_eq; reflexivity. Qed.

Lemma str_eqb_neq (s t : jsstring) : str_eqb s t = false <-> s <> t.
Proof.
  rewrite <- str_eqb_eq. destruct (str_eqb s t); split; congruence.
Qed.

Lemma str_eqb_sym (s t : jsstring) : str_eqb s t = str_eqb t s.
Proof.
  destruct (str_eqb s t) eqn:E.
  - apply str_eqb_eq in E; subst; symmetry; apply str_eqb_refl.
  - symmetry; apply str_eqb_neq; apply str_eqb_neq in E; congruence.
Qed.

(** ** The classification of a turn *)

Section Classification.
Context {RT : Runtime}.

Ltac cmp_cases :=
  repeat match goal with
  | |- context [(?a <=? ?b)%N] => destruct (N.leb_spec a b)
  | |- context [(?a <? ?b)%N] => destruct (N.ltb_spec a b)
  | |- context [(?a =? ?b)%N] => destruct (N.eqb_spec a b)
  | _ => progress simpl
  end.

(** Under the [i] flag a lower-case ASCII letter of the pattern matches
    exactly the two ASCII units of that letter, whatever the Unicode table. *)
Lemma char_match_lower (p c : code_unit) :
  lower_letter p -> char_match_i p c = true <-> ascii_lower c = p.
Proof.
  unfold lower_letter, char_match_i, Canonicalize, toUpperCase1, is_ascii,
    ascii_upper, ascii_lower, cu_eqb.
  intros Hp. rewrite N.eqb_eq.
  cmp_cases; split; intros; try lia.
Qed.

Lemma match_prefix_lower (w text : jsstring) :
  Forall lower_letter w ->
  match_prefix_i w text = true <-> starts_with_nocase w text.
Proof.
  intros Hw; revert text; induction Hw as [|p w Hp Hw IH]; intros text.
  - simpl; split; auto. intros _; exists [], text; auto.
  - destruct text as [|c text]; simpl.
    + split; [discriminate|].
      intros (pre & rest & E & M). destruct pre; simpl in *; discriminate.
    + rewrite andb_true_iff, (char_match_lower c Hp), IH. split.
      * intros (E & pre & rest & -> & M).
        exists (c :: pre), rest; simpl; split; congruence.
      * intros (pre & rest & E & M). destruct pre as [|c' pre];
          simpl in *; try discriminate.
        injection E as -> ->; injection M as M1 M2.
        split; auto. exists pre, rest; auto.
Qed.

Lemma lead_words_lower : Forall (Forall lower_letter) lead_words.
Proof.
  unfold lead_words, lower_letter; simpl.
  repeat constructor; simpl; lia.
Qed.

(** The rule of the classification: the regular expression holds exactly of
    the texts that start with a lead word, letter case apart (and a text with
    leading white space starts with none). *)
Lemma isQuestion_rule (text : jsstring) :
  isQuestion text = true <->
  exists w, In w lead_words /\ starts_with_nocase w text.
Proof.
  unfold isQuestion, test_anchored_alt_i. rewrite existsb_exists.
  pose proof lead_words_lower as L. rewrite Forall_forall in L.
  split; intros (w & Hin & H); exists w; split; auto;
    apply (match_prefix_lower _ (L w Hin)); auto.
Qed.

End Classification.

Unset Implicit Arguments.

(** ** The agents *)

Section Agents.
Context {RT : Runtime}.
Variable env : Env.

Lemma log_nil (w : World) : log [] w = w.
Proof. destruct w; unfold log; simpl. rewrite app_nil_r. reflexivity. Qed.

Lemma parse_reply_run (r : Reply) (w : World) :
  parse_reply env r w
  = (Normal (fst (decode env r)), log (snd (decode env r)) w).
Proof.
  destruct w; unfold parse_reply, decode, log.
  destruct r as [|[t|]]; simpl; try rewrite app_nil_r; auto.
  destruct (truthy t); simpl; try rewrite app_nil_r; auto.
  destruct (JSON_parse env t); simpl; try rewrite app_nil_r; auto.
Qed.

Lemma runVisionAgent_run (b : option jsstring) (m : jsstring) (w : World) :
  runVisionAgent env b m w =
  (Normal (fst (agent_answer env (ReqVision b m))),
   log (snd (agent_answer env (ReqVision b m))) w).
Proof.
  unfold runVisionAgent, agent_answer.
  destruct (API_KEY env); simpl.
  - unfold bind, emit, modify. rewrite parse_reply_run.
    destruct (decode _) as [l evs]; simpl.
    destruct w; unfold log; simpl. rewrite <- app_assoc. reflexivity.
  - rewrite log_nil. reflexivity.
Qed.

Lemma runParsingAgent_run (t c : jsstring) (w : World) :
  runParsingAgent env t c w =
  (Normal (fst (agent_answer env (ReqParse t c))),
   log (snd (agent_answer env (ReqParse t c))) w).
Proof.
  unfold runParsingAgent, agent_answer.
  destruct (API_KEY env); simpl.
  - unfold bind, emit, modify. rewrite parse_reply_run.
    destruct (decode _) as [l evs]; simpl.
    destruct w; unfold log; simpl. rewrite <- app_assoc. reflexivity.
  - rewrite log_nil. reflexivity.
Qed.

Lemma runSummaryAgent_run (q : jsstring) (data : list Expense) (w : World) :
  runSummaryAgent env q data w =
  (Normal (fst (summary_answer env q data)),
   log (snd (summary_answer env q data)) w).
Proof.
  unfold runSummaryAgent, summary_answer. cbv zeta.
  generalize (ReqSummary q (List.map digest (firstn 100 data))); intros req.
  destruct (API_KEY env); simpl.
  - unfold bind, emit, modify, console_error.
    destruct (generateContent env req) as [|[t|]]; destruct w; unfold log;
      simpl; try rewrite <- app_assoc; reflexivity.
  - rewrite log_nil. reflexivity.
Qed.

(** Without an API key the two extraction agents return the empty list and
    leave the world as it is: no request is sent. *)
Lemma agents_without_key (w : World) :
  API_KEY env = false ->
  (forall t c, runParsingAgent env t c w = (Normal [], w)) /\
  (forall b m, runVisionAgent env b m w = (Normal [], w)).
Proof.
  intros K; split; intros; unfold runParsingAgent, runVisionAgent;
    rewrite K; reflexivity.
Qed.

Lemma agent_answer_without_key (req : Request) :
  API_KEY env = false -> agent_answer env req = ([], []).
Proof. intros K; unfold agent_answer; rewrite K; reflexivity. Qed.

(** An extraction agent never calls the adapter. *)
Lemma agent_answer_commits (req : Request) :
  commits (snd (agent_answer env req)) = [].
Proof.
  unfold agent_answer, decode.
  destruct (API_KEY env); simpl; auto.
  destruct (generateContent env req) as [|[t|]]; simpl; auto.
  destruct (truthy t); simpl; auto.
  destruct (JSON_parse env t); simpl; auto.
Qed.

Lemma agent_answer_joins (req : Request) :
  filter is_join (snd (agent_answer env req)) = [].
Proof.
  unfold agent_answer, decode.
  destruct (API_KEY env); simpl; auto.
  destruct (generateContent env req) as [|[t|]]; simpl; auto.
  destruct (truthy t); simpl; auto.
  destruct (JSON_parse env t); simpl; auto.
Qed.

Lemma summary_answer_commits (q : jsstring) (data : list Expense) :
  commits (snd (summary_answer env q data)) = [].
Proof.
  unfold summary_answer. cbv zeta.
  generalize (ReqSummary q (List.map digest (firstn 100 data))); intros req.
  destruct (API_KEY env); simpl; auto.
  destruct (generateContent env req) as [|[t|]]; simpl; auto.
Qed.

(** With a key, the request of an extraction agent is the first thing it
    logs. *)
Lemma agent_answer_with_key (req : Request) :
  API_KEY env = true ->
  exists evs, snd (agent_answer env req) = EvGenerate req :: evs.
Proof.
  intros K. unfold agent_answer. rewrite K; simpl.
  destruct (decode env (generateContent env req)) as [l evs]; simpl; eauto.
Qed.

End Agents.

(** ** The send handler *)

Ltac run :=
  repeat first
    [ rewrite runVisionAgent_run | rewrite runParsingAgent_run
    | rewrite runSummaryAgent_run
    | progress cbv beta iota zeta delta
        [bind ret throw return_ emit modify tick now say get_state
         getLocalData saveLocalData load callback
         push_message bot setAgentStatus setIsProcessing
         console_error fileToBase64 log restore catch_block
         async try_catch_finally started echo
         put_trace put_ticks put_agentStatus put_isProcessing
         setMessages setExpenses put_localStorage put_firestore
         user expenses messages input selectedImage imagePreview
         isProcessing agentStatus localStorage firestore ticks
         trace]
    | progress cbn [fst snd] ].

Ltac flat := repeat first [rewrite <- app_assoc | progress simpl].

Ltac proj :=
  cbn [user expenses messages input selectedImage imagePreview isProcessing
       agentStatus localStorage firestore ticks trace andb negb orb
       is_some] in *.

Ltac count_commits :=
  repeat first
    [ rewrite filter_app | rewrite agent_answer_commits
    | rewrite summary_answer_commits | rewrite app_nil_r
    | progress simpl ].

Section Handler.
Context {RT : Runtime}.
Variable env : Env.

(** Past the guard, the handler is its [try] statement run from [started]. *)
Lemma handleSend_accepted (w : World) :
  accepts w = true ->
  handleSend env w =
  async (try_catch_finally (try_block env w) (catch_block env) restore)
        (started env w).
Proof.
  unfold accepts. rewrite negb_true_iff. intros G.
  unfold handleSend, handleSend_body.
  unfold async at 1. unfold bind at 1. unfold get_state at 1.
  rewrite G. reflexivity.
Qed.

(** A turn the guard turns down changes nothing. *)
Lemma handleSend_refused (w : World) :
  accepts w = false -> handleSend env w = (Normal tt, w).
Proof.
  unfold accepts. rewrite negb_false_iff. intros G.
  unfold handleSend, handleSend_body, async, bind, get_state.
  rewrite G. reflexivity.
Qed.

(** Whatever the [try] and [catch] blocks do, the [finally] block has the
    last word. *)
Lemma finally_restores {A} (body handler : M A) (w : World) :
  let r := try_catch_finally body handler restore w in
  isProcessing (snd r) = false /\ agentStatus (snd r) = idle /\
  (exists tr, trace (snd r) = tr ++ [EvProcessing false; EvStatus idle]) /\
  (fst r = Throw ->
   exists w1 w2, body w = (Throw, w1) /\ handler w1 = (Throw, w2)).
Proof.
  unfold try_catch_finally.
  destruct (body w) as [c1 w1].
  assert (F : forall (c : Completion A) (w2 : World),
             let r := (let (c3, w3) := restore w2 in
                       match c3 with
                       | Normal _ => (c, w3)
                       | Return => (Return, w3)
                       | Throw => (Throw, w3)
                       end) in
             isProcessing (snd r) = false /\ agentStatus (snd r) = idle /\
             (exists tr,
                 trace (snd r) = tr ++ [EvProcessing false; EvStatus idle]) /\
             fst r = c).
  { intros c w2. destruct w2; cbn. repeat split.
    eexists. rewrite <- app_assoc. reflexivity. }
  destruct c1 as [a| |].
  - destruct (F (Normal a) w1) as (H1 & H2 & H3 & H4).
    repeat split; auto. intros E. cbv zeta in H4. rewrite H4 in E.
    discriminate.
  - destruct (F (@Return A) w1) as (H1 & H2 & H3 & H4).
    repeat split; auto. intros E. cbv zeta in H4. rewrite H4 in E.
    discriminate.
  - destruct (handler w1) as [c2 w2] eqn:Hh.
    destruct (F c2 w2) as (H1 & H2 & H3 & H4).
    repeat split; auto. intros E. cbv zeta in H4. rewrite H4 in E. subst c2.
    eauto.
Qed.

Lemma catch_block_normal (w : World) : fst (catch_block env w) = Normal tt.
Proof. reflexivity. Qed.

(** C8. Every pass of the send handler that gets past its guard, whatever
    the services and the backend answer (success, a failed commit, an image
    that cannot be read, or the summary short-circuit), terminates with its
    promise fulfilled, the processing flag cleared and the agent status
    [idle], both set by the two closing steps of the pass. *)
Theorem handleSend_restores_idle (w : World) :
  accepts w = true ->
  let r := handleSend env w in
  fst r = Normal tt /\
  isProcessing (snd r) = false /\ agentStatus (snd r) = idle /\
  exists tr, trace (snd r) = tr ++ [EvProcessing false; EvStatus idle].
Proof.
  intros A. rewrite (handleSend_accepted w A).
  pose proof (finally_restores (try_block env w) (catch_block env)
                               (started env w)) as F.
  cbv zeta in *. unfold async.
  destruct (try_catch_finally _ _ _ _) as [c w'] eqn:E.
  simpl in F. destruct F as (F1 & F2 & F3 & F4).
  destruct c as [[]| |]; simpl; auto.
  destruct F4 as (w1 & w2 & _ & H); auto.
  pose proof (catch_block_normal w1) as N. rewrite H in N. discriminate.
Qed.

End Handler.

(** ** Question turns *)

Section Questions.
Context {RT : Runtime}.
Variable env : Env.

(** C4. On a turn classified as a question no transaction record is
    created: both stores are as before and the adapter's create operation is
    never called.  An image sent along is still taken through the vision
    step: the vision status is entered, the file is read and, when it can be
    read, the vision agent runs on it before the summary status is entered. *)
Theorem question_turn_creates_no_record (w : World) :
  accepts w = true ->
  question_turn w = true ->
  let w' := snd (handleSend env w) in
  localStorage w' = localStorage w /\ firestore w' = firestore w /\
  commits (trace w') = commits (trace w) /\
  (forall f, selectedImage w = Some f ->
     exists evs,
       trace w' = trace w ++
                  EvProcessing true :: EvStatus vision :: EvFileRead f :: evs /\
       forall url, readAsDataURL env f = Some url ->
         exists evs',
           evs = snd (agent_answer env
                        (ReqVision (base64_of url) (file_type f)))
                 ++ EvStatus summary :: evs').
Proof.
  intros A Q. rewrite (handleSend_accepted env w A).
  unfold question_turn in Q. apply andb_true_iff in Q. destruct Q as [T Q].
  unfold try_block, vision_step, text_step. rewrite T, Q.
  destruct w as [u ex ms inp img prev proc st ls fs tk tr].
  destruct img as [f|]; run.
  - destruct (readAsDataURL env f) as [url|] eqn:R; run.
    + repeat split; auto.
      * count_commits. reflexivity.
      * intros f' E; injection E as <-. flat. eexists; split; [reflexivity|].
        intros url' E'. rewrite R in E'. injection E' as <-.
        eexists. reflexivity.
    + repeat split; auto.
      * count_commits. reflexivity.
      * intros f' E; injection E as <-. flat. eexists; split; [reflexivity|].
        intros url' E'. rewrite R in E'. discriminate.
  - repeat split; auto.
    + count_commits. reflexivity.
    + intros f' E; discriminate.
Qed.

End Questions.

(** ** Committing the candidates *)

Section Commit.
Context {RT : Runtime}.
Variable env : Env.


Lemma digest_jsonify (e : Expense) : digest (jsonify e) = digest e.
Proof. reflexivity. Qed.

Lemma map_digest_jsonify (l : list Expense) :
  List.map digest (List.map jsonify l) = List.map digest l.
Proof. rewrite map_map. apply map_ext. intros; apply digest_jsonify. Qed.

Lemma update_collection_same uid f (fs : jsstring -> list Doc) :
  update_collection uid f fs uid = f (fs uid).
Proof. unfold update_collection. rewrite str_eqb_refl. reflexivity. Qed.

Lemma addExpense_run (uid text : jsstring) (e : Expense) (w : World) :
  exists c w' evs,
    addExpense env uid e text w = (c, w') /\
    messages w' = messages w /\
    trace w' = trace w ++ EvAddExpense uid e text :: evs /\
    commits evs = [] /\ filter is_join evs = [] /\
    (all_writes_succeed env ->
     c = Normal tt /\
     List.map digest (records env uid w')
     = List.map digest (records env uid w) ++ [digest e]).
Proof.
  destruct w as [u ex ms inp img prev proc st ls fs tk tr].
  unfold addExpense, records.
  destruct (firebase env) eqn:F.
  - run. destruct (write_ok env tk) eqn:W; run.
    + do 3 eexists. split; [reflexivity|]. run.
      repeat (split; [solve [auto] |]).
      rewrite update_collection_same. rewrite !map_app. reflexivity.
    + do 3 eexists. split; [reflexivity|]. run.
      repeat (split; [solve [auto] |]).
      intros Hall; rewrite Hall in W; discriminate.
  - unfold saveLocalData, load, getLocalData, callback. run.
    destruct (write_ok env (S (S tk))) eqn:W; run.
    + do 3 eexists. split; [reflexivity|]. run.
      split; [reflexivity|]. split; [flat; reflexivity|].
      repeat (split; [solve [auto] |]).
      simpl. rewrite !map_digest_jsonify, map_app. reflexivity.
    + do 3 eexists. split; [reflexivity|]. run.
      repeat (split; [solve [auto] |]).
      intros Hall; rewrite Hall in W; discriminate.
Qed.


(** The first two steps of the [try] block hand the candidates to the third
    and leave the stores alone. *)
Lemma extraction_run (w : World) :
  question_turn w = false ->
  image_readable env w ->
  exists w2 evs,
    (forall K : list Expense -> M unit,
        (extracted <- vision_step env (selectedImage w) ;;
         extracted' <- text_step env (input w) (expenses w) extracted ;;
         K extracted') (started env w)
        = K (candidates env w) w2) /\
    messages w2 = messages w ++ [echo env w] /\
    localStorage w2 = localStorage w /\ firestore w2 = firestore w /\
    ticks w2 = S (ticks w) /\
    trace w2 = trace w ++ EvProcessing true :: evs /\
    commits evs = [] /\ filter is_join evs = [].
Proof.
  intros Q R. unfold question_turn in Q. unfold image_readable in R.
  unfold candidates, vision_candidates, text_candidates.
  unfold vision_step, text_step.
  destruct w as [u ex ms inp img prev proc st ls fs tk tr].
  proj.
  assert (Fin : forall (P1 P2 P3 P4 P5 P6 P7 P8 : Prop),
             P1 -> P2 -> P3 -> P4 -> P5 -> P6 -> P7 -> P8 ->
             P1 /\ P2 /\ P3 /\ P4 /\ P5 /\ P6 /\ P7 /\ P8) by tauto.
  destruct img as [f|].
  - destruct (readAsDataURL env f) as [url|] eqn:U;
      [|exfalso; apply (R f); auto].
    destruct (truthy (trim inp)) eqn:T; proj.
    + rewrite Q. proj. do 2 eexists.
      apply Fin; [intros K; run; rewrite U; run; reflexivity | run; auto ..].
      * flat; reflexivity.
      * count_commits; auto.
      * count_commits; repeat rewrite agent_answer_joins; auto.
    + do 2 eexists.
      apply Fin;
        [intros K; run; rewrite U; run; rewrite app_nil_r; reflexivity
        | run; auto ..].
      * flat; reflexivity.
      * count_commits; auto.
      * count_commits; repeat rewrite agent_answer_joins; auto.
  - destruct (truthy (trim inp)) eqn:T; proj.
    + rewrite Q. proj. do 2 eexists.
      apply Fin; [intros K; run; reflexivity | run; auto ..].
      * flat; reflexivity.
      * count_commits; auto.
      * count_commits; repeat rewrite agent_answer_joins; auto.
    + exists (started env (mkWorld u ex ms inp None prev proc st ls fs tk tr)), [].
      apply Fin; run; auto.
Qed.




End Commit.

(** ** Passes that extract nothing *)

Section Empty.
Context {RT : Runtime}.
Variable env : Env.

(** A pass whose candidate list is empty commits nothing and replies with
    [empty_reply]. *)
Lemma empty_extraction (w : World) :
  accepts w = true ->
  question_turn w = false ->
  image_readable env w ->
  candidates env w = [] ->
  let w' := snd (handleSend env w) in
  messages w' = messages w ++ echo env w :: empty_reply env w /\
  commits (trace w') = commits (trace w) /\
  localStorage w' = localStorage w /\ firestore w' = firestore w.
Proof.
  intros A Q R NE. cbv zeta. rewrite (handleSend_accepted env w A).
  destruct (extraction_run env w Q R)
    as (w2 & evs & K & M2 & L2 & F2 & K2 & T2 & C2 & J2).
  unfold async, try_catch_finally, try_block. rewrite K. clear K.
  rewrite NE. unfold commit_step, empty_reply.
  change (0 <? List.length (@nil Expense))%nat with false. cbv iota.
  clear A Q R NE.
  destruct w as [u ex ms inp img prev proc st ls fs tk tr].
  destruct w2 as [u2 ex2 ms2 inp2 img2 prev2 proc2 st2 ls2 fs2 tk2 tr2].
  proj. subst ms2 ls2 fs2 tk2 tr2.
  destruct (truthy inp); destruct img as [f|]; proj; run;
    (split; [flat; reflexivity|]); (split; [|split; reflexivity]);
    count_commits; rewrite C2; count_commits; reflexivity.
Qed.

(** An image with no text at all and nothing extracted: the fixed reply
    about the image. *)
Lemma empty_extraction_image_only (w : World) :
  accepts w = true -> image_readable env w -> candidates env w = [] ->
  input w = [] -> selectedImage w <> None ->
  messages (snd (handleSend env w))
  = messages w ++
    [echo env w; bot (Date_now env (S (ticks w))) no_image_text None].
Proof.
  intros A R NE I S.
  assert (Q : question_turn w = false)
    by (unfold question_turn; rewrite I; reflexivity).
  destruct (empty_extraction w A Q R NE) as (M & _). rewrite M.
  unfold empty_reply. rewrite I.
  destruct (selectedImage w); [reflexivity | congruence].
Qed.

(** Text without an image and nothing extracted: the fixed reply about the
    expense. *)
Lemma empty_extraction_text_only (w : World) :
  accepts w = true -> question_turn w = false -> candidates env w = [] ->
  selectedImage w = None ->
  messages (snd (handleSend env w))
  = messages w ++
    [echo env w; bot (Date_now env (S (ticks w))) no_expense_text None].
Proof.
  intros A Q NE S.
  assert (R : image_readable env w)
    by (intros f E; rewrite S in E; discriminate).
  destruct (empty_extraction w A Q R NE) as (M & _). rewrite M.
  unfold empty_reply. rewrite S.
  unfold accepts in A. rewrite S in A.
  destruct (input w) as [|c s]; [|reflexivity].
  destruct (isProcessing w); discriminate.
Qed.

(** An image together with text, and nothing extracted: no reply at all. *)
Lemma empty_extraction_image_and_text (w : World) :
  accepts w = true -> question_turn w = false -> image_readable env w ->
  candidates env w = [] ->
  input w <> [] -> selectedImage w <> None ->
  messages (snd (handleSend env w)) = messages w ++ [echo env w].
Proof.
  intros A Q R NE I S.
  destruct (empty_extraction w A Q R NE) as (M & _). rewrite M.
  unfold empty_reply.
  destruct (input w); [congruence|]. destruct (selectedImage w);
    [reflexivity | congruence].
Qed.

(** Without an API key nothing is extracted and no request is sent. *)
Lemma no_key_no_candidates (w : World) :
  API_KEY env = false -> candidates env w = [].
Proof.
  intros K. unfold candidates, vision_candidates, text_candidates.
  destruct (selectedImage w) as [f|]; [destruct (readAsDataURL env f)|];
    destruct (truthy (trim (input w)) && negb (isQuestion (input w)));
    repeat rewrite agent_answer_without_key by exact K; reflexivity.
Qed.

(** Without an API key, text that is no question and comes without an image
    is answered with the fixed reply about the expense, and nothing is
    committed. *)
Lemma no_key_text_only (w : World) :
  API_KEY env = false ->
  accepts w = true -> question_turn w = false -> selectedImage w = None ->
  let w' := snd (handleSend env w) in
  messages w'
  = messages w ++
    [echo env w; bot (Date_now env (S (ticks w))) no_expense_text None] /\
  commits (trace w') = commits (trace w) /\
  localStorage w' = localStorage w /\ firestore w' = firestore w.
Proof.
  intros K A Q S. cbv zeta. split.
  - apply empty_extraction_text_only; auto using no_key_no_candidates.
  - assert (R : image_readable env w)
      by (intros f E; rewrite S in E; discriminate).
    destruct (empty_extraction w A Q R (no_key_no_candidates w K))
      as (_ & H). exact H.
Qed.

End Empty.

(** ** Sorting and delivery *)

Section Sorting.
Context {RT : Runtime}.

Lemma insert_sorted_perm cmp (x : Expense) (l : list Expense) :
  Permutation (insert_sorted cmp x l) (x :: l).
Proof.
  induction l as [|y l IH]; simpl; auto.
  destruct (0 <? cmp x y)%Z; auto.
  rewrite IH. apply perm_swap.
Qed.

Lemma Array_sort_perm cmp (l : list Expense) :
  Permutation (Array_sort cmp l) l.
Proof.
  induction l as [|x l IH]; simpl; auto.
  rewrite insert_sorted_perm. auto.
Qed.

Lemma insert_sorted_descending (time : Expense -> Z) x l :
  descending time l -> descending time (insert_sorted (desc time) x l).
Proof.
  unfold descending, desc.
  induction 1 as [|y l S IH F]; simpl.
  - repeat constructor.
  - destruct (Z.ltb_spec 0 (time y - time x)) as [G|G].
    + constructor; auto.
      eapply Permutation_Forall.
      * symmetry. apply insert_sorted_perm.
      * constructor; [lia | exact F].
    + constructor; [constructor; auto|].
      constructor; [lia|].
      eapply Forall_impl; [|exact F]. simpl; intros; lia.
Qed.

Lemma Array_sort_descending (time : Expense -> Z) l :
  descending time (Array_sort (desc time) l).
Proof.
  induction l as [|x l IH]; simpl.
  - constructor.
  - apply insert_sorted_descending; exact IH.
Qed.

(** In a descending list, a record of time zero has only records of
    non-negative time before it and of non-positive time behind it. *)
Lemma descending_split (time : Expense -> Z) l1 a l2 :
  descending time (l1 ++ a :: l2) ->
  Forall (fun b => (time b >= time a)%Z) l1 /\
  Forall (fun b => (time a >= time b)%Z) l2.
Proof.
  unfold descending. induction l1 as [|x l1 IH]; simpl; intros S.
  - inversion S; subst. split; auto.
  - inversion S as [|? ? S' F]; subst. destruct (IH S') as [H1 H2].
    split; auto. constructor; auto.
    rewrite Forall_forall in F. apply F. apply in_elt.
Qed.

(** Sorting commutes with a map that respects the comparator. *)
Lemma insert_sorted_map cmp cmp' (g : Expense -> Expense) x l :
  (forall a b, cmp' (g a) (g b) = cmp a b) ->
  insert_sorted cmp' (g x) (List.map g l)
  = List.map g (insert_sorted cmp x l).
Proof.
  intros H. induction l as [|y l IH]; simpl; auto.
  rewrite H. destruct (0 <? cmp x y)%Z; simpl; congruence.
Qed.

Lemma Array_sort_map cmp cmp' (g : Expense -> Expense) l :
  (forall a b, cmp' (g a) (g b) = cmp a b) ->
  Array_sort cmp' (List.map g l) = List.map g (Array_sort cmp l).
Proof.
  intros H. induction l as [|x l IH]; simpl; auto.
  rewrite IH. apply insert_sorted_map; auto.
Qed.

Lemma missing_timestamp_is_zero (clock : Z) (a : Expense) :
  createdAt a = None -> local_time a = 0%Z /\ cloud_time clock a = 0%Z.
Proof. unfold local_time, cloud_time; intros ->; auto. Qed.

Variable env : Env.

(** C2. In both modes every record set handed to the subscription
    callback is a rearrangement of the stored records in descending order of
    creation time, equal times allowed: by [toMillis()] in cloud mode, by
    [seconds * 1000] in local mode.  A record without timestamp counts as
    time zero, so it stands behind every record of positive time. *)
Theorem callbacks_deliver_descending (w : World) :
  (let w' := snd (load w) in
   exists d,
     trace w' = trace w ++ [EvCallback d] /\ expenses w' = d /\
     Permutation d (getLocalData_of (localStorage w)) /\
     descending local_time d) /\
  (forall docs,
   let clock := Date_now env (ticks w) in
   let w' := snd (onSnapshot_listener env docs w) in
   exists d,
     trace w' = trace w ++ [EvCallback d] /\ expenses w' = d /\
     Permutation d (List.map of_doc docs) /\
     descending (cloud_time clock) d) /\
  (forall clock a,
      createdAt a = None -> local_time a = 0%Z /\ cloud_time clock a = 0%Z) /\
  (forall time l1 a l2,
      descending time (l1 ++ a :: l2) -> time a = 0%Z ->
      Forall (fun b => (time b >= 0)%Z) l1 /\
      Forall (fun b => (time b <= 0)%Z) l2).
Proof.
  destruct w as [u ex ms inp img prev proc st ls fs tk tr].
  split; [|split; [|split]].
  - run. eexists. repeat split.
    + apply Array_sort_perm.
    + apply Array_sort_descending.
  - intros docs. unfold onSnapshot_listener. run. eexists. repeat split.
    + apply Array_sort_perm.
    + apply Array_sort_descending.
  - intros; apply missing_timestamp_is_zero; auto.
  - intros time l1 a l2 D Z. destruct (descending_split time l1 a l2 D) as [H1 H2].
    rewrite Z in *. split; eapply Forall_impl; try eassumption;
      simpl; intros; lia.
Qed.

End Sorting.

(** ** Ties, and removal of an absent id *)

Section Ties.
Context {RT : Runtime}.

Lemma strictly_descending_head (time : Expense -> Z) a b l :
  strictly_descending time (a :: b :: l) -> (time a > time b)%Z.
Proof.
  intros S. inversion S as [|? ? _ F]; subst.
  inversion F; subst; assumption.
Qed.
End Ties.

Import Scenario.

(** Two records created in the same second, in either mode, are delivered
    in an order that is not strictly descending. *)
Lemma same_time_records_are_not_strictly_descending :
  (let w := with_storage [stamped "tea" 40 "Food" 5;
                          stamped "bus" 25 "Transport" 5] in
   ~ strictly_descending local_time (expenses (snd (load w)))) /\
  (let docs := [stamped_doc "tea" 40 "Food" 5;
                stamped_doc "bus" 25 "Transport" 5] in
   let w := with_collection docs in
   ~ strictly_descending (cloud_time (Date_now cloud_model (ticks w)))
       (expenses (snd (onSnapshot_listener cloud_model docs w)))).
Proof.
  split; cbv zeta; intros S; apply strictly_descending_head in S;
    vm_compute in S; discriminate.
Qed.

Section Removal.
Context {RT : Runtime}.
Variable env : Env.

Lemma filter_keeps_all {A} (f : A -> bool) (l : list A) :
  Forall (fun x => f x = true) l -> filter f l = l.
Proof.
  induction 1 as [|x l H _ IH]; simpl; auto. rewrite H, IH. reflexivity.
Qed.

Lemma jsonify_idem (e : Expense) : jsonify (jsonify e) = jsonify e.
Proof. destruct e as [i it a c [t|] o]; reflexivity. Qed.

Lemma map_jsonify_idem (l : list Expense) :
  List.map jsonify (List.map jsonify l) = List.map jsonify l.
Proof. rewrite map_map. apply map_ext. intros; apply jsonify_idem. Qed.

Lemma getLocalData_plain (s : Slot) :
  List.map jsonify (getLocalData_of s) = getLocalData_of s.
Proof. destruct s; simpl; auto. apply map_jsonify_idem. Qed.

(** What the two callbacks deliver is [delivered]. *)
Lemma load_delivers (w : World) (clock : Z) (uid : jsstring) :
  firebase env = false ->
  subscribeToExpenses env uid w = load w /\
  expenses (snd (load w)) = delivered env clock uid w.
Proof.
  intros F. unfold subscribeToExpenses, delivered. rewrite F.
  destruct w; split; reflexivity.
Qed.

Lemma snapshot_delivers (w : World) (uid : jsstring) :
  firebase env = true ->
  expenses (snd (onSnapshot_listener env (firestore w uid) w))
  = delivered env (Date_now env (ticks w)) uid w.
Proof.
  intros F. unfold delivered. rewrite F. destruct w; reflexivity.
Qed.

Lemma handleDeleteExpense_never_throws (expenseId : jsstring) (w : World) :
  fst (handleDeleteExpense env expenseId w) = Normal tt.
Proof.
  unfold handleDeleteExpense, bind, get_state, promise_of, ret.
  destruct (async _ w) as [[[]| |] w']; reflexivity.
Qed.

Lemma removeExpense_absent (w : World) (uid expenseId : jsstring) :
  id_absent env uid expenseId w ->
  let r := removeExpense env uid expenseId w in
  fst r = (if write_ok env (ticks w) then Normal tt else Throw) /\
  (forall clock u, delivered env clock u (snd r) = delivered env clock u w) /\
  (exists evs,
      trace (snd r) = trace w ++ evs /\
      forall d clock, In (EvCallback d) evs -> d = delivered env clock uid w).
Proof.
  intros Abs. cbv zeta. unfold id_absent, delivered in *.
  unfold removeExpense.
  destruct w as [u0 ex ms inp img prev proc st ls fs tk tr]. proj.
  destruct (firebase env) eqn:F.
  - run. destruct (write_ok env tk); run.
    + split; [reflexivity|]. split.
      * intros clock u. unfold update_collection.
        destruct (str_eqb u uid) eqn:E; [|reflexivity].
        apply str_eqb_eq in E; subst u.
        rewrite filter_keeps_all; [reflexivity|].
        eapply Forall_impl; [|exact Abs]. simpl. intros d ->. reflexivity.
      * exists []. rewrite app_nil_r. split; [reflexivity|].
        intros d clock [].
    + split; [reflexivity|]. split; [reflexivity|].
      exists []. rewrite app_nil_r. split; [reflexivity|]. intros d clock [].
  - run.
    assert (Keep : filter (fun e => negb (has_id expenseId e))
                          (getLocalData_of ls) = getLocalData_of ls).
    { apply filter_keeps_all. eapply Forall_impl; [|exact Abs].
      simpl. intros e ->. reflexivity. }
    rewrite Keep.
    destruct (write_ok env tk); run.
    + change (getLocalData_of (Stored (List.map jsonify (getLocalData_of ls))))
        with (List.map jsonify (List.map jsonify (getLocalData_of ls))).
      rewrite map_jsonify_idem, getLocalData_plain.
      split; [reflexivity|]. split; [reflexivity|].
      eexists. split; [flat; reflexivity|].
      intros d clock [E|[E|[]]]; [discriminate|]. congruence.
    + split; [reflexivity|]. split; [reflexivity|].
      exists []. rewrite app_nil_r. split; [reflexivity|]. intros d clock [].
Qed.

(** C9. Deleting an id that no stored record carries is a no-op in both
    modes: the promise is fulfilled whenever the backend accepts the write,
    the caller [handleDeleteExpense] never sees an exception, the record set
    the subscription delivers is the same as before for every user, and the
    callback that the local write triggers delivers that same set. *)
Theorem removing_absent_id_changes_nothing (w : World)
        (uid expenseId : jsstring) :
  id_absent env uid expenseId w ->
  let r := removeExpense env uid expenseId w in
  (write_ok env (ticks w) = true -> fst r = Normal tt) /\
  fst (handleDeleteExpense env expenseId w) = Normal tt /\
  (forall clock u, delivered env clock u (snd r) = delivered env clock u w) /\
  (exists evs,
      trace (snd r) = trace w ++ evs /\
      forall d clock, In (EvCallback d) evs -> d = delivered env clock uid w).
Proof.
  intros Abs. cbv zeta.
  destruct (removeExpense_absent w uid expenseId Abs) as (R & D & T).
  split; [intros W; rewrite R, W; reflexivity|].
  split; [apply handleDeleteExpense_never_throws|].
  split; assumption.
Qed.

End Removal.

(** ** Creating a record in local mode *)

Section LocalCreate.
Context {RT : Runtime}.
Variable env : Env.

(** What the local branch of [addExpense] stores. *)
Lemma addExpense_local (w : World) (uid text : jsstring) (e : Expense) :
  firebase env = false ->
  write_ok env (S (S (ticks w))) = true ->
  let r := addExpense env uid e text w in
  fst r = Normal tt /\
  getLocalData_of (localStorage (snd r))
  = getLocalData_of (localStorage w) ++ [local_record env w e text].
Proof.
  intros F W. cbv zeta. unfold addExpense, local_record. rewrite F.
  destruct w as [u0 ex ms inp img prev proc st ls fs tk tr]. proj.
  run. rewrite W. run. split; [reflexivity|].
  simpl. rewrite map_jsonify_idem, map_app, getLocalData_plain. reflexivity.
Qed.

(** What is read back from the slot is plain data: no record that the local
    subscription delivers has a [toMillis], so every row of the dashboard
    shows the label for a missing date. *)
Lemma local_records_have_no_accessor (w : World) (uid : jsstring)
      (clock : Z) :
  firebase env = false ->
  Forall (fun r => date_shown clock r = None) (delivered env clock uid w).
Proof.
  intros F. unfold delivered. rewrite F.
  eapply Permutation_Forall.
  - apply Permutation_sym, Array_sort_perm.
  - destruct (localStorage w); simpl; try constructor.
    apply Forall_forall. intros r H. apply in_map_iff in H.
    destruct H as (x & <- & _). unfold date_shown, jsonify. simpl.
    destruct (createdAt x); reflexivity.
Qed.

End LocalCreate.

Import Scenario.

(** C7. A create call in local mode builds the record with a generated id
    and a timestamp whose [toMillis] answers the clock, but [saveLocalData]
    serialises the list and the function member is left out: the record that
    is stored, read back and delivered has the id and the whole seconds and
    no accessor, so the row of the dashboard shows no date for it.  The same
    create call in cloud mode delivers a record whose accessor answers. *)
Theorem local_timestamp_loses_its_accessor :
  let env := silent_model false in
  let uid := lit "local_user" in
  let e := expense "tea" 40 "Food" in
  let built :=
    @mkExpense Zrt (Some (randomUUID env 0)) (lit "tea") 40%Z (lit "Food")
               (Some (mkTimestamp 1 0 (Some MillisNow))) (Some (lit "tea 40")) in
  let r := addExpense env uid e (lit "tea 40") (fresh "" None) in
  let rc := addExpense cloud_model uid e (lit "tea 40") (with_collection []) in
  fst r = Normal tt /\
  (forall clock, date_shown clock built = Some clock) /\
  localStorage (snd r) = Stored [jsonify built] /\
  expenses (snd r) = [jsonify built] /\
  (forall clock, delivered env clock uid (snd r) = [jsonify built]) /\
  List.map (fun x => option_map toMillis (createdAt x)) (expenses (snd r))
  = [Some None] /\
  (forall clock, List.map (date_shown clock) (expenses (snd r)) = [None]) /\
  fst rc = Normal tt /\
  (forall clock,
      List.map (date_shown clock) (delivered cloud_model clock uid (snd rc))
      = [Some 7000%Z]).
Proof.
  cbv zeta. repeat split; try intros clock; vm_compute; reflexivity.
Qed.

(** ** The memory context *)

Section Memory.
Context {RT : Runtime}.

Lemma own_get_none (k : jsstring) (o : props) :
  own_get k o = None <-> existsb (str_eqb k) (List.map fst o) = false.
Proof.
  induction o as [|[k' v] o IH]; simpl; [tauto|].
  destruct (str_eqb k k'); simpl; [split; discriminate | exact IH].
Qed.

Lemma own_get_in (k v : jsstring) (o : props) :
  own_get k o = Some v -> In (k, v) o.
Proof.
  induction o as [|[k' v'] o IH]; simpl; [discriminate|].
  destruct (str_eqb k k') eqn:E.
  - intros H; injection H as ->. apply str_eqb_eq in E; subst. auto.
  - auto.
Qed.

(** The fold of [habit_step] over a history of plain keys, from an object of
    plain keys and non-empty values. *)
Lemma fold_habit_step (l : list Expense) :
  forall acc : props,
    Forall (fun e => counted e = true -> plain_key (label e)) l ->
    Forall (fun kv => truthy (snd kv) = true) acc ->
    fold_left habit_step l acc = acc ++ first_seen (List.map fst acc) l.
Proof.
  induction l as [|e l IH]; intros acc Hl Hacc; simpl.
  - rewrite app_nil_r. reflexivity.
  - inversion Hl as [|? ? He Hl']; subst.
    unfold habit_step at 2. fold (counted e). fold (label e).
    destruct (counted e) eqn:C; simpl; [|apply IH; auto].
    destruct (He eq_refl) as [Hidx Hinh].
    unfold obj_get, obj_set.
    destruct (own_get (label e) acc) as [v|] eqn:G.
    + assert (T : truthy v = true).
      { rewrite Forall_forall in Hacc.
        apply (Hacc (label e, v)). apply own_get_in; auto. }
      simpl. rewrite T. simpl.
      assert (S : existsb (str_eqb (label e)) (List.map fst acc) = true).
      { destruct (existsb _ _) eqn:X; auto.
        apply own_get_none in X. congruence. }
      rewrite S. simpl. apply IH; auto.
    + rewrite Hinh. simpl. rewrite Hidx.
      apply own_get_none in G. rewrite G. simpl.
      rewrite IH; auto.
      * rewrite map_app. simpl. rewrite <- app_assoc. reflexivity.
      * apply Forall_app. split; auto. constructor; auto.
        simpl. unfold counted in C. apply andb_true_iff in C. tauto.
Qed.

Lemma filter_filter {A} (f g : A -> bool) (l : list A) :
  filter f (filter g l) = filter (fun x => g x && f x) l.
Proof.
  induction l as [|x l IH]; simpl; auto.
  destruct (g x); simpl; [destruct (f x)|]; rewrite IH; reflexivity.
Qed.

Lemma notin_app (seen : list jsstring) (k k' : jsstring) :
  notin (seen ++ [k]) k' = negb (str_eqb k' k) && notin seen k'.
Proof.
  unfold notin. rewrite existsb_app. simpl. rewrite orb_false_r.
  rewrite negb_orb. apply andb_comm.
Qed.

(** The keys of [first_seen]: the distinct keys of the counted records, less
    those already seen. *)
Lemma first_seen_keys (l : list Expense) :
  forall seen,
    List.map fst (first_seen seen l)
    = filter (notin seen) (dedup (List.map label (filter counted l))).
Proof.
  induction l as [|e l IH]; intros seen; simpl; auto.
  destruct (counted e) eqn:C; simpl; [|apply IH].
  fold (notin seen (label e)).
  destruct (notin seen (label e)) eqn:N; simpl.
  - f_equal. rewrite IH, filter_filter. apply filter_ext.
    intros k. apply notin_app.
  - rewrite IH, filter_filter. apply filter_ext. intros k.
    destruct (str_eqb k (label e)) eqn:E; simpl; auto.
    apply str_eqb_eq in E; subst k. exact N.
Qed.

(** The value of a key in [first_seen]: the category of its first counted
    record. *)
Lemma first_seen_lookup (l : list Expense) (k : jsstring) :
  forall seen,
    own_get k (first_seen seen l)
    = if notin seen k then option_map category (first_record k l) else None.
Proof.
  unfold first_record.
  induction l as [|e l IH]; intros seen; simpl.
  - destruct (notin seen k); reflexivity.
  - destruct (counted e) eqn:C; simpl; [|apply IH].
    fold (notin seen (label e)).
    destruct (notin seen (label e)) eqn:N; simpl.
    + destruct (str_eqb k (label e)) eqn:E; simpl.
      * apply str_eqb_eq in E; subst k. rewrite N. reflexivity.
      * rewrite IH, notin_app, E. reflexivity.
    + rewrite IH. destruct (str_eqb k (label e)) eqn:E; simpl; auto.
      apply str_eqb_eq in E; subst k. rewrite N. reflexivity.
Qed.

Lemma filter_true {A} (l : list A) : filter (fun _ => true) l = l.
Proof. induction l; simpl; congruence. Qed.

(** C6. For a history whose keys (the item label lowercased, then trimmed,
    of the records with a non-empty label and category) are neither array
    indices nor property names of [Object.prototype]: the habit map lists the
    distinct keys in the order of their first occurrence, each with the
    category of the first such record, and [buildMemoryContext] renders its
    first 50 entries. *)
Theorem memory_context_first_categories (expenses : list Expense) :
  Forall (fun e => counted e = true -> plain_key (label e)) expenses ->
  let m := habitMap_of expenses in
  List.map fst m = dedup (List.map label (filter counted expenses)) /\
  (forall k,
      own_get k m = option_map category (first_record k expenses)) /\
  memory_entries expenses = firstn 50 m /\
  buildMemoryContext expenses
  = join (lit ", ") (List.map render_habit (firstn 50 m)).
Proof.
  intros H. cbv zeta. unfold habitMap_of.
  rewrite (fold_habit_step expenses [] H (Forall_nil _)). simpl.
  split; [|split; [|split]].
  - rewrite first_seen_keys. apply filter_true.
  - intros k. rewrite first_seen_lookup. reflexivity.
  - unfold memory_entries, habitMap_of, Object_entries.
    rewrite (fold_habit_step expenses [] H (Forall_nil _)). reflexivity.
  - unfold buildMemoryContext, habitMap_of, Object_entries.
    rewrite (fold_habit_step expenses [] H (Forall_nil _)). reflexivity.
Qed.

End Memory.

(** ** Runs of the handler *)

Section Runs.
Import Scenario.

(** C1. The text "How much did I spend on food?" is classified as a
    question, and so is "Spent 500 on dinner", since "spent" is one of the
    lead words: the handler takes it down the summary path, sends the
    summary request only and commits nothing, although the parsing agent would
    have read a purchase out of it. *)
Theorem spent_turn_takes_summary_path :
  (forall RT : Runtime,
      @isQuestion RT (lit "How much did I spend on food?") = true) /\
  (forall RT : Runtime, @isQuestion RT (lit "Spent 500 on dinner") = true) /\
  let w0 := fresh "Spent 500 on dinner" None in
  let w' := snd (handleSend one_purchase w0) in
  fst (agent_answer one_purchase
         (ReqParse (input w0) (buildMemoryContext (expenses w0))))
  = [expense "dinner" 500 "Food"] /\
  remote_calls (trace w')
  = [EvGenerate (ReqSummary (lit "Spent 500 on dinner") [])] /\
  commits (trace w') = [] /\
  localStorage w' = Absent /\
  List.map (@msg_type Zrt) (messages w') = [user_msg; bot_msg].
Proof.
  split; [intros RT; vm_compute; reflexivity|].
  split; [intros RT; vm_compute; reflexivity|].
  vm_compute. repeat split.
Qed.

(** C5. An image sent together with the text "lunch", and an image sent
    with a text of one blank, when nothing is extracted from either: the pass
    ends with the user's own message as the only message, so no reply is
    given; nothing is committed. *)
Theorem image_with_text_gets_no_reply :
  let run text :=
    snd (handleSend (silent_model true) (fresh text (Some receipt))) in
  candidates (silent_model true) (fresh "lunch" (Some receipt)) = [] /\
  List.map (@msg_type Zrt) (messages (run "lunch"%string)) = [user_msg] /\
  commits (trace (run "lunch"%string)) = [] /\
  candidates (silent_model true) (fresh " " (Some receipt)) = [] /\
  List.map (@msg_type Zrt) (messages (run " "%string)) = [user_msg] /\
  commits (trace (run " "%string)) = [].
Proof. vm_compute. repeat split. Qed.

(** C10. Without an API key, the text "lunch 200" sent together with an
    image: no request is sent and nothing is committed, but the pass ends
    with the user's own message as the only message, so the fixed reply about
    the expense is not given. *)
Theorem no_key_image_with_text_gets_no_reply :
  let w0 := fresh "lunch 200" (Some receipt) in
  let w' := snd (handleSend (silent_model false) w0) in
  question_turn w0 = false /\
  remote_calls (trace w') = [] /\
  commits (trace w') = [] /\
  List.map (@msg_text Zrt) (messages w') = [lit "lunch 200"].
Proof. vm_compute. repeat split. Qed.

(** The example of the specification: the first category of "coffee" stays. *)
Lemma coffee_keeps_its_first_category :
  @memory_entries Zrt [expense "coffee" 30 "food"; expense "Coffee" 45 "drinks"]
  = [(lit "coffee", lit "food")].
Proof. vm_compute. reflexivity. Qed.

(** A label with white space around it is stored under its trimmed form, and
    a record without category is passed over: in both cases the entries are
    not those of the wording. *)
Lemma memory_context_departs_from_the_wording :
  @memory_entries Zrt [expense " Coffee" 30 "food"]
  <> @spec_memory Zrt [expense " Coffee" 30 "food"] /\
  @memory_entries Zrt [expense "tea" 10 ""; expense "tea" 12 "drinks"]
  <> @spec_memory Zrt [expense "tea" 10 ""; expense "tea" 12 "drinks"].
Proof. split; vm_compute; discriminate. Qed.

(** A label that is a property name of [Object.prototype] never enters the
    habit map, and a label that is an array index is enumerated before the
    labels recorded earlier. *)
Lemma plain_object_pitfalls :
  @buildMemoryContext Zrt [expense "constructor" 90 "Toys"] = [] /\
  @memory_entries Zrt [expense "tea" 10 "drinks"; expense "7" 20 "snacks"]
  = [(lit "7", lit "snacks"); (lit "tea", lit "drinks")].
Proof. split; vm_compute; reflexivity. Qed.

End Runs.

(** ** The theorems at work *)

Section Instances.
Import Scenario.

Lemma handleSend_restores_idle_witness :
  let w := fresh "bought dinner 500" None in
  accepts w = true /\
  let r := handleSend refused_writes w in
  fst r = Normal tt /\
  isProcessing (snd r) = false /\ agentStatus (snd r) = idle /\
  exists tr, trace (snd r) = tr ++ [EvProcessing false; EvStatus idle].
Proof.
  split; [reflexivity|].
  apply (handleSend_restores_idle refused_writes
           (fresh "bought dinner 500" None)).
  reflexivity.
Defined.

Lemma question_turn_creates_no_record_witness :
  let env := one_purchase in
  let w := fresh "How much did I spend on food?" (Some receipt) in
  accepts w = true /\ question_turn w = true /\
  let w' := snd (handleSend env w) in
  localStorage w' = localStorage w /\ firestore w' = firestore w /\
  commits (trace w') = commits (trace w) /\
  (forall f, selectedImage w = Some f ->
     exists evs,
       trace w' = trace w ++
                  EvProcessing true :: EvStatus vision :: EvFileRead f :: evs /\
       forall url, readAsDataURL env f = Some url ->
         exists evs',
           evs = snd (agent_answer env
                        (ReqVision (base64_of url) (file_type f)))
                 ++ EvStatus summary :: evs').
Proof.
  split; [reflexivity|]. split; [reflexivity|].
  apply (question_turn_creates_no_record one_purchase
           (fresh "How much did I spend on food?" (Some receipt)));
    reflexivity.
Defined.


Lemma callbacks_deliver_descending_witness :
  let w := with_storage [stamped "tea" 40 "Food" 5;
                         stamped "bus" 25 "Transport" 9] in
  exists d,
    trace (snd (load w)) = trace w ++ [EvCallback d] /\
    expenses (snd (load w)) = d /\
    Permutation d (getLocalData_of (localStorage w)) /\
    descending local_time d.
Proof.
  exact (proj1 (callbacks_deliver_descending (silent_model false)
                  (with_storage [stamped "tea" 40 "Food" 5;
                                 stamped "bus" 25 "Transport" 9]))).
Defined.

Lemma removing_absent_id_changes_nothing_witness :
  let env := silent_model false in
  let w := with_storage [stamped "tea" 40 "Food" 5;
                         stamped "bus" 25 "Transport" 9] in
  let uid := lit "local_user" in
  let expenseId := lit "cab" in
  id_absent env uid expenseId w /\
  let r := removeExpense env uid expenseId w in
  (write_ok env (ticks w) = true -> fst r = Normal tt) /\
  fst (handleDeleteExpense env expenseId w) = Normal tt /\
  (forall clock u, delivered env clock u (snd r) = delivered env clock u w) /\
  (exists evs,
      trace (snd r) = trace w ++ evs /\
      forall d clock, In (EvCallback d) evs -> d = delivered env clock uid w).
Proof.
  assert (A : id_absent (silent_model false) (lit "local_user") (lit "cab")
                (with_storage [stamped "tea" 40 "Food" 5;
                               stamped "bus" 25 "Transport" 9]))
    by (repeat constructor).
  split; [exact A|].
  apply (removing_absent_id_changes_nothing (silent_model false)
           (with_storage [stamped "tea" 40 "Food" 5;
                          stamped "bus" 25 "Transport" 9])
           (lit "local_user") (lit "cab") A).
Defined.

Lemma memory_context_first_categories_witness :
  let expenses := [expense "coffee" 30 "food"; expense "Coffee" 45 "drinks"] in
  Forall (fun e => counted e = true -> plain_key (label e)) expenses /\
  let m := habitMap_of expenses in
  List.map fst m = dedup (List.map label (filter counted expenses)) /\
  (forall k,
      own_get k m = option_map category (first_record k expenses)) /\
  memory_entries expenses = firstn 50 m /\
  buildMemoryContext expenses
  = join (lit ", ") (List.map render_habit (firstn 50 m)).
Proof.
  assert (P : Forall (fun e : @Expense Zrt =>
                        counted e = true -> plain_key (label e))
                [expense "coffee" 30 "food"; expense "Coffee" 45 "drinks"])
    by (repeat constructor).
  split; [exact P|].
  apply (memory_context_first_categories
           [expense "coffee" 30 "food"; expense "Coffee" 45 "drinks"] P).
Defined.

End Instances.

(* ================================================================== *)
(** * Further properties of the code *)

Section Outcome.
Context {RT : Runtime}.
Variable env : Env.

(** What one create call does, whatever the backend answers. *)
Lemma addExpense_outcome (uid text : jsstring) (e : Expense) (w : World) :
  let ok := write_ok env (write_tick env (ticks w) 0) in
  exists w' evs,
    addExpense env uid e text w = ((if ok then Normal tt else Throw), w') /\
    same_app w w' /\
    ticks w' = ticks w + (if firebase env then 1 else 3) /\
    trace w' = trace w ++ EvAddExpense uid e text :: evs /\
    statuses evs = [] /\ remote_calls evs = [] /\
    List.map digest (records env uid w')
    = List.map digest (records env uid w) ++ (if ok then [digest e] else []) /\
    (firebase env = false -> in_sync w -> in_sync w') /\
    (firebase env = true -> expenses w' = expenses w).
Proof.
  destruct w as [u ex ms inp img prev proc st ls fs tk tr].
  unfold write_tick, addExpense, records, same_app, in_sync.
  destruct (firebase env) eqn:F; proj.
  - replace (tk + 0) with tk by lia.
    run. destruct (write_ok env tk) eqn:W; run;
      (do 2 eexists; split; [reflexivity|]); run;
      repeat split; intros; try solve [auto | lia | discriminate].
    + rewrite update_collection_same. rewrite !map_app. reflexivity.
    + rewrite app_nil_r. reflexivity.
  - replace (tk + 3 * 0 + 2) with (S (S tk)) by lia.
    run. destruct (write_ok env (S (S tk))) eqn:W; run;
      (do 2 eexists; split; [reflexivity|]); run;
      repeat split; intros;
      try solve [auto | lia | discriminate | reflexivity].
    + flat. reflexivity.
    + reflexivity.
    + reflexivity.
    + simpl. rewrite !map_digest_jsonify, map_app. reflexivity.
    + rewrite app_nil_r. reflexivity.
Qed.

Lemma write_tick_step (t0 i : nat) :
  write_tick env (t0 + (if firebase env then 1 else 3)) i
  = write_tick env t0 (S i).
Proof. unfold write_tick. destruct (firebase env); lia. Qed.

Lemma write_flags_step (t0 n : nat) :
  write_flags env t0 (S n)
  = write_ok env (write_tick env t0 0)
    :: write_flags env (t0 + (if firebase env then 1 else 3)) n.
Proof.
  unfold write_flags. simpl. f_equal.
  rewrite <- seq_shift, map_map. apply map_ext.
  intros i. rewrite write_tick_step. reflexivity.
Qed.

Lemma same_app_trans (a b c : World) :
  same_app a b -> same_app b c -> same_app a c.
Proof. unfold same_app. intuition congruence. Qed.

Lemma statuses_app (a b : list Event) :
  statuses (a ++ b) = statuses a ++ statuses b.
Proof. unfold statuses. apply flat_map_app. Qed.

(** What the create calls of a commit step do, whatever the backend
    answers: each call is accepted or refused by its own write. *)
Lemma issue_all_outcome (uid text : jsstring) (l : list Expense) :
  forall w : World,
  let flags := write_flags env (ticks w) (List.length l) in
  exists w' evs,
    issue_all env uid text l w = (Normal flags, w') /\
    same_app w w' /\
    ticks w' = ticks w + List.length l * (if firebase env then 1 else 3) /\
    trace w' = trace w ++ evs /\
    statuses evs = [] /\ remote_calls evs = [] /\
    commits evs = List.map (fun e => EvAddExpense uid e text) l /\
    List.map digest (records env uid w')
    = List.map digest (records env uid w) ++ List.map digest (select flags l) /\
    (firebase env = false -> in_sync w -> in_sync w') /\
    (firebase env = true -> expenses w' = expenses w).
Proof.
  induction l as [|e l IH]; intros w; cbv zeta.
  - exists w, []. simpl. rewrite !app_nil_r.
    unfold same_app. repeat split; auto.
  - destruct (addExpense_outcome uid text e w)
      as (w1 & ev1 & E1 & A1 & K1 & T1 & S1 & G1 & R1 & Y1 & X1).
    destruct (IH w1)
      as (w2 & ev2 & E2 & A2 & K2 & T2 & S2 & G2 & C2 & R2 & Y2 & X2).
    exists w2, (EvAddExpense uid e text :: ev1 ++ ev2).
    simpl List.length. rewrite write_flags_step. rewrite <- K1.
    split.
    { simpl. unfold bind, promise_of. rewrite E1.
      destruct (write_ok env (write_tick env (ticks w) 0));
        rewrite E2; reflexivity. }
    split; [eapply same_app_trans; eauto|].
    split; [rewrite K2, K1; simpl; lia|].
    split; [rewrite T2, T1, <- app_assoc; reflexivity|].
    split; [simpl; rewrite statuses_app, S1, S2; reflexivity|].
    split; [simpl; rewrite filter_app, G1, G2; reflexivity|].
    split.
    { simpl. rewrite filter_app, C2. f_equal.
      destruct (addExpense_run env uid text e w)
        as (c & w1' & ev1' & E1' & _ & T1' & C1' & _).
      rewrite E1 in E1'. injection E1' as _ <-.
      rewrite T1 in T1'. apply app_inv_head in T1'. injection T1' as <-.
      rewrite C1'. reflexivity. }
    split.
    { rewrite R2, R1. rewrite <- app_assoc. f_equal.
      simpl. destruct (write_ok env (write_tick env (ticks w) 0)); reflexivity. }
    split; [intros F I; auto|].
    intros F. rewrite X2, X1; auto.
Qed.
End Outcome.

Ltac filt := repeat first [rewrite filter_app | rewrite app_nil_r | progress simpl].

Section Paths.
Context {RT : Runtime}.
Variable env : Env.

Lemma statuses_agent (req : Request) :
  statuses (snd (agent_answer env req)) = [].
Proof.
  unfold agent_answer, decode.
  destruct (API_KEY env); simpl; auto.
  destruct (generateContent env req) as [|[t|]]; simpl; auto.
  destruct (truthy t); simpl; auto.
  destruct (JSON_parse env t); simpl; auto.
Qed.

Lemma statuses_summary (q : jsstring) (data : list Expense) :
  statuses (snd (summary_answer env q data)) = [].
Proof.
  unfold summary_answer. cbv zeta.
  generalize (ReqSummary q (List.map digest (firstn 100 data))); intros req.
  destruct (API_KEY env); simpl; auto.
  destruct (generateContent env req) as [|[t|]]; simpl; auto.
Qed.

(** The extraction steps hand the candidates to the commit step in
    [extracted_world]. *)
Lemma extraction_world (w : World) :
  question_turn w = false ->
  image_readable env w ->
  forall K : list Expense -> M unit,
    (extracted <- vision_step env (selectedImage w) ;;
     extracted' <- text_step env (input w) (expenses w) extracted ;;
     K extracted') (started env w)
    = K (candidates env w) (extracted_world env w).
Proof.
  intros Q R K. unfold question_turn in Q. unfold image_readable in R.
  unfold candidates, vision_candidates, text_candidates, extracted_world,
    vision_events, parse_events, extraction_status.
  unfold vision_step, text_step.
  destruct w as [u ex ms inp img prev proc st ls fs tk tr].
  proj.
  destruct img as [f|].
  - destruct (readAsDataURL env f) as [url|] eqn:U;
      [|exfalso; apply (R f); auto].
    destruct (truthy (trim inp)) eqn:T; proj.
    + rewrite Q. proj. run. rewrite U. run. flat. reflexivity.
    + run. rewrite U. run. rewrite !app_nil_r. flat. reflexivity.
  - destruct (truthy (trim inp)) eqn:T; proj.
    + rewrite Q. proj. run. flat. reflexivity.
    + run. reflexivity.
Qed.

Lemma statuses_extraction (w : World) :
  image_readable env w ->
  statuses (vision_events env w ++ parse_events env w)
  = extraction_statuses w.
Proof.
  intros R. unfold vision_events, parse_events, extraction_statuses.
  rewrite statuses_app.
  destruct (selectedImage w) as [f|]; simpl.
  - destruct (readAsDataURL env f); [rewrite statuses_agent|];
      destruct (truthy (trim (input w)) && negb (isQuestion (input w)));
      simpl; try rewrite statuses_agent; reflexivity.
  - destruct (truthy (trim (input w)) && negb (isQuestion (input w)));
      simpl; try rewrite statuses_agent; reflexivity.
Qed.

(** A pass whose image cannot be read. *)
Lemma unreadable_pass (w : World) (f : File) :
  accepts w = true ->
  selectedImage w = Some f -> readAsDataURL env f = None ->
  let w' := snd (handleSend env w) in
  pass_result env w w'
    [bot (Date_now env (S (ticks w))) error_text None] [vision; idle] [] /\
  trace w' = trace w ++ [EvProcessing true; EvStatus vision; EvFileRead f;
                         EvConsoleError; EvProcessing false; EvStatus idle] /\
  localStorage w' = localStorage w /\ firestore w' = firestore w.
Proof.
  intros A S U. cbv zeta. rewrite (handleSend_accepted env w A).
  unfold try_block, vision_step, pass_result, records, in_sync. rewrite S.
  destruct w as [u ex ms inp img prev proc st ls fs tk tr]. proj.
  run. rewrite U. run.
  repeat split; intros; try solve [auto | rewrite app_nil_r; auto].
  - flat. reflexivity.
  - eexists. split; [flat; reflexivity | reflexivity].
  - flat. reflexivity.
Qed.

(** A question turn whose image, if any, can be read. *)
Lemma question_pass (w : World) :
  accepts w = true -> question_turn w = true -> image_readable env w ->
  let w' := snd (handleSend env w) in
  pass_result env w w'
    [bot (Date_now env (S (ticks w)))
         (fst (summary_answer env (input w) (expenses w))) None]
    ((if is_some (selectedImage w) then [vision] else [])
     ++ [summary; idle; idle]) [] /\
  remote_calls (trace w')
  = remote_calls (trace w) ++ remote_calls (vision_events env w)
    ++ remote_calls (snd (summary_answer env (input w) (expenses w))) /\
  localStorage w' = localStorage w /\ firestore w' = firestore w.
Proof.
  intros A Q R. cbv zeta. rewrite (handleSend_accepted env w A).
  unfold question_turn in Q. apply andb_true_iff in Q. destruct Q as [T Q].
  unfold try_block, vision_step, text_step, pass_result, records, in_sync,
    vision_events.
  rewrite T, Q. unfold image_readable in R.
  destruct w as [u ex ms inp img prev proc st ls fs tk tr]. proj.
  destruct img as [f|]; run.
  - destruct (readAsDataURL env f) as [url|] eqn:U;
      [|exfalso; apply (R f); auto].
    run.
    repeat split; intros; try solve [auto | rewrite app_nil_r; auto].
    + flat. reflexivity.
    + eexists. split; [flat; reflexivity|].
      simpl. rewrite !statuses_app, statuses_agent. simpl.
      rewrite statuses_app, statuses_summary. reflexivity.
    + flat. filt. reflexivity.
  - repeat split; intros; try solve [auto | rewrite app_nil_r; auto].
    + flat. reflexivity.
    + eexists. split; [flat; reflexivity|].
      simpl. rewrite statuses_app, statuses_summary. reflexivity.
    + flat. filt. reflexivity.
Qed.

End Paths.

Section Paths2.
Context {RT : Runtime}.
Variable env : Env.

(** A pass that extracts nothing. *)
Lemma empty_pass (w : World) :
  accepts w = true -> question_turn w = false -> image_readable env w ->
  candidates env w = [] ->
  let w' := snd (handleSend env w) in
  pass_result env w w' (empty_reply env w)
              (extraction_statuses w ++ [idle]) [] /\
  localStorage w' = localStorage w /\ firestore w' = firestore w /\
  remote_calls (trace w')
  = remote_calls (trace w)
    ++ remote_calls (vision_events env w ++ parse_events env w).
Proof.
  intros A Q R NE. cbv zeta. rewrite (handleSend_accepted env w A).
  unfold async, try_catch_finally, try_block.
  rewrite (extraction_world env w Q R). rewrite NE.
  pose proof (statuses_extraction env w R) as SE.
  unfold commit_step, empty_reply, pass_result, records, in_sync,
    extracted_world.
  change (0 <? List.length (@nil Expense))%nat with false. cbv iota.
  revert SE. generalize (vision_events env w ++ parse_events env w).
  generalize (extraction_statuses w). intros sts evs SE.
  clear A Q R NE.
  destruct w as [u ex ms inp img prev proc st ls fs tk tr]. proj.
  destruct (truthy inp); destruct img as [f|]; proj; run;
    repeat split; intros; try solve [auto | rewrite app_nil_r; auto];
    try (flat; reflexivity);
    try (flat; filt; reflexivity);
    (eexists; split; [flat; reflexivity|]);
    rewrite !statuses_app, SE; reflexivity.
Qed.

(** A pass that reaches the commit step with candidates: every create call
    is accepted or refused by its own write. *)
Lemma commit_pass (w : World) :
  accepts w = true -> question_turn w = false -> image_readable env w ->
  candidates env w <> [] ->
  let cands := candidates env w in
  let n := List.length cands in
  let flags := write_flags env (S (ticks w)) n in
  let t := Date_now env (S (ticks w) + n * (if firebase env then 1 else 3)) in
  let w' := snd (handleSend env w) in
  pass_result env w w' [commit_reply t cands flags]
              (extraction_statuses w ++ [ledger; idle])
              (select flags cands) /\
  commits (trace w')
  = commits (trace w)
    ++ List.map (fun e => EvAddExpense (uid_of (user w)) e
                            (or_else (input w) (lit "Receipt Scan"))) cands /\
  remote_calls (trace w')
  = remote_calls (trace w)
    ++ remote_calls (vision_events env w ++ parse_events env w).
Proof.
  intros A Q R NE. cbv zeta. rewrite (handleSend_accepted env w A).
  unfold async, try_catch_finally, try_block.
  rewrite (extraction_world env w Q R).
  pose proof (statuses_extraction env w R) as SE.
  assert (CE : commits (vision_events env w ++ parse_events env w) = []).
  { unfold vision_events, parse_events. rewrite filter_app.
    destruct (selectedImage w) as [f|]; simpl;
      [destruct (readAsDataURL env f)|];
      destruct (truthy (trim (input w)) && negb (isQuestion (input w)));
      simpl; repeat rewrite agent_answer_commits; reflexivity. }
  revert SE CE. generalize (extraction_statuses w). intros sts.
  unfold extracted_world.
  generalize (vision_events env w ++ parse_events env w). intros evs SE CE.
  generalize (extraction_status w). intros st0.
  remember (candidates env w) as cands eqn:EC. clear EC.
  unfold commit_step.
  assert (P : (0 <? List.length cands)%nat = true)
    by (destruct cands; [congruence | reflexivity]).
  rewrite P. clear P A Q R NE.
  unfold pass_result, commit_reply, in_sync.
  destruct w as [u ex ms inp img prev proc st ls fs tk tr]. proj.
  set (uid := uid_of u). set (text := or_else inp (lit "Receipt Scan")).
  run.
  match goal with
  | |- context [issue_all env uid text cands ?W] =>
      destruct (issue_all_outcome env uid text cands W)
        as (w3 & ev3 & E3 & A3 & K3 & T3 & S3 & G3 & C3 & R3 & Y3 & X3);
      rewrite E3
  end.
  unfold same_app, records, in_sync in *.
  destruct w3 as [u3 ex3 ms3 inp3 img3 prev3 proc3 st3 ls3 fs3 tk3 tr3].
  proj. destruct A3 as (-> & -> & -> & -> & -> & -> & ->).
  subst tk3 tr3. unfold Promise_all. run.
  destruct (forallb (fun p => p) (write_flags env (S tk) (List.length cands)));
    run.
  - split.
    + repeat split; intros; try solve [auto].
      * flat. reflexivity.
      * eexists. split; [flat; reflexivity|].
        unfold statuses in *.
        repeat first [rewrite flat_map_app | progress simpl].
        rewrite SE, S3. reflexivity.
    + split; flat; filt; [rewrite CE, C3 | rewrite G3; filt]; reflexivity.
  - split.
    + repeat split; intros; try solve [auto].
      * flat. reflexivity.
      * eexists. split; [flat; reflexivity|].
        unfold statuses in *.
        repeat first [rewrite flat_map_app | progress simpl].
        rewrite SE, S3. reflexivity.
    + split; flat; filt; [rewrite CE, C3 | rewrite G3; filt]; reflexivity.
Qed.

End Paths2.

Section Passes.
Context {RT : Runtime}.
Variable env : Env.

Lemma readable_or_not (w : World) :
  image_readable env w \/ image_unreadable env w.
Proof.
  unfold image_readable, image_unreadable.
  destruct (selectedImage w) as [f|].
  - destruct (readAsDataURL env f) eqn:U.
    + left. intros f' E; injection E as <-. congruence.
    + right. eauto.
  - left. intros f E; discriminate.
Qed.

Lemma accepted_has_content (w : World) :
  accepts w = true ->
  truthy (trim (input w)) = true \/ is_some (selectedImage w) = true.
Proof.
  unfold accepts. destruct (truthy (trim (input w))); auto.
  destruct (is_some (selectedImage w)); auto.
Qed.

(** Every pass past the guard is one of the four passes. *)
Lemma pass_cases (w : World) :
  accepts w = true ->
  exists reply sts kept,
    pass_result env w (snd (handleSend env w)) reply sts kept /\
    (List.length reply <= 1)%nat /\
    Forall (fun m => msg_type m = bot_msg) reply /\
    In sts status_walks /\
    (question_turn w = true -> kept = []).
Proof.
  intros A.
  destruct (readable_or_not w) as [R|(f & S & U)].
  - destruct (question_turn w) eqn:Q.
    + destruct (question_pass env w A Q R) as (P & _).
      do 3 eexists. split; [exact P|].
      split; [simpl; lia|]. split; [repeat constructor|].
      split; [|auto].
      destruct (is_some (selectedImage w)); simpl; auto 10.
    + assert (W : In (extraction_statuses w ++ [idle]) status_walks /\
                  (candidates env w <> [] ->
                   In (extraction_statuses w ++ [ledger; idle]) status_walks)).
      { unfold extraction_statuses, candidates, vision_candidates,
          text_candidates. unfold question_turn in Q.
        destruct (accepted_has_content w A) as [T|I].
        - rewrite T in *. simpl in Q. rewrite Q. simpl.
          destruct (selectedImage w); simpl; auto 10.
        - rewrite I. destruct (selectedImage w) as [f|]; [|discriminate].
          destruct (truthy (trim (input w)) && negb (isQuestion (input w)));
            simpl; auto 10. }
      destruct W as [W1 W2].
      destruct (candidates env w) as [|c l] eqn:C.
      * destruct (empty_pass env w A Q R C) as (P & _).
        do 3 eexists. split; [exact P|].
        split.
        { unfold empty_reply.
          destruct (negb (truthy (input w)) && is_some (selectedImage w));
            [simpl; lia|].
          destruct (truthy (input w) && negb (is_some (selectedImage w)));
            simpl; lia. }
        split; [|split; [exact W1 | discriminate]].
        unfold empty_reply.
        destruct (negb (truthy (input w)) && is_some (selectedImage w));
          [repeat constructor|].
        destruct (truthy (input w) && negb (is_some (selectedImage w)));
          repeat constructor.
      * assert (NE : candidates env w <> []) by (rewrite C; discriminate).
        destruct (commit_pass env w A Q R NE) as (P & _).
        rewrite C in *.
        do 3 eexists. split; [exact P|].
        split; [simpl; lia|].
        split; [|split; [apply W2; discriminate | discriminate]].
        unfold commit_reply. constructor; [|constructor].
        destruct (forallb _ _); reflexivity.
  - destruct (unreadable_pass env w f A S U) as (P & _).
    do 3 eexists. split; [exact P|].
    split; [simpl; lia|]. split; [repeat constructor|].
    split; [simpl; auto|auto].
Qed.

(** X1. After a pass that got past the guard the input and the image are
    cleared, so the submit button of the chat is disabled, and a submit that
    follows with nothing entered in between returns at the guard and leaves
    everything as it is. *)
Theorem second_submit_is_noop (w : World) :
  accepts w = true ->
  let w' := snd (handleSend env w) in
  submit_disabled w' = true /\
  handleSend env w' = (Normal tt, w').
Proof.
  intros A. cbv zeta.
  destruct (pass_cases w A) as (reply & sts & kept & P & _).
  destruct P as (I & S & _).
  assert (D : submit_disabled (snd (handleSend env w)) = true)
    by (unfold submit_disabled; rewrite I, S; reflexivity).
  split; [exact D|].
  apply handleSend_refused. unfold accepts.
  unfold submit_disabled in D. rewrite D. reflexivity.
Qed.

Lemma refused_submit_changes_nothing (w : World) :
  submit_disabled w = true -> handleSend env w = (Normal tt, w).
Proof.
  intros D. apply handleSend_refused. unfold accepts.
  unfold submit_disabled in D. rewrite D. reflexivity.
Qed.

(** X2. The conversation only grows: a send keeps the earlier messages and
    appends nothing when the guard turns it down, and otherwise the echo of
    the user's turn followed by at most one message, a bot message. *)
Theorem conversation_is_append_only (w : World) :
  let w' := snd (handleSend env w) in
  exists tail,
    messages w' = messages w ++ tail /\
    (accepts w = false -> tail = []) /\
    (accepts w = true ->
     exists reply,
       tail = echo env w :: reply /\ (List.length reply <= 1)%nat /\
       Forall (fun m => msg_type m = bot_msg) reply).
Proof.
  cbv zeta. destruct (accepts w) eqn:A.
  - destruct (pass_cases w A) as (reply & sts & kept & P & L & B & _).
    destruct P as (_ & _ & _ & _ & _ & _ & M & _).
    exists (echo env w :: reply). split; [exact M|].
    split; [discriminate|]. intros _. eauto.
  - rewrite (handleSend_refused env w A). simpl.
    exists []. rewrite app_nil_r. split; [reflexivity|].
    split; [reflexivity | discriminate].
Qed.

(** X3. A send never removes or rewrites a stored record: the labels,
    amounts and categories of the user's records after the pass are, as a
    collection, those before together with those of the records the pass
    added; in local mode the stored array keeps its order and the added
    records come at its end; nothing is added when the send is turned down or
    the turn is a question. *)
Theorem send_never_removes_records (w : World) :
  let w' := snd (handleSend env w) in
  let uid := uid_of (user w) in
  exists kept,
    Permutation (List.map digest (records env uid w'))
                (List.map digest (records env uid w) ++ List.map digest kept) /\
    (firebase env = false ->
     List.map digest (getLocalData_of (localStorage w'))
     = List.map digest (getLocalData_of (localStorage w))
       ++ List.map digest kept) /\
    (accepts w = false \/ question_turn w = true -> kept = []).
Proof.
  cbv zeta. destruct (accepts w) eqn:A.
  - destruct (pass_cases w A) as (reply & sts & kept & P & _ & _ & _ & K).
    destruct P as (_ & _ & _ & _ & _ & _ & _ & _ & R & _).
    exists kept. split; [rewrite R; apply Permutation_refl|].
    split.
    + intros F. unfold records in R. rewrite F in R. exact R.
    + intros [X|X]; [discriminate | auto].
  - rewrite (handleSend_refused env w A). simpl.
    exists []. simpl. rewrite !app_nil_r.
    split; [apply Permutation_refl|]. split; auto.
Qed.

(** X4. The statuses a pass sets, in order, form one of eight walks: the
    ledger status comes only after the vision or the parsing status, the
    summary status is never followed by parsing or ledger, and the last one
    is always idle. *)
Theorem status_follows_a_walk (w : World) :
  accepts w = true ->
  exists evs,
    trace (snd (handleSend env w)) = trace w ++ evs /\
    In (statuses evs) status_walks.
Proof.
  intros A.
  destruct (pass_cases w A) as (reply & sts & kept & P & _ & _ & W & _).
  destruct P as (_ & _ & _ & _ & _ & _ & _ & (evs & T & S) & _).
  exists (EvProcessing true :: evs). split; [exact T|].
  simpl. rewrite S. exact W.
Qed.

End Passes.

Section Passes2.
Context {RT : Runtime}.
Variable env : Env.

(** X5. When the attached image cannot be read the pass answers with the
    generic error message, sends no request to the language model (the text
    that came along is not parsed) and commits nothing. *)
Theorem unreadable_image_gets_the_error_reply (w : World) (f : File) :
  accepts w = true ->
  selectedImage w = Some f -> readAsDataURL env f = None ->
  let w' := snd (handleSend env w) in
  messages w'
  = messages w ++
    [echo env w; bot (Date_now env (S (ticks w))) error_text None] /\
  remote_calls (trace w') = remote_calls (trace w) /\
  commits (trace w') = commits (trace w) /\
  localStorage w' = localStorage w /\ firestore w' = firestore w.
Proof.
  intros A S U. cbv zeta.
  destruct (unreadable_pass env w f A S U) as (P & T & L & F).
  destruct P as (_ & _ & _ & _ & _ & _ & M & _).
  rewrite T. split; [exact M|].
  split; [filt; reflexivity|]. split; [filt; reflexivity|]. auto.
Qed.

Lemma select_all {A} (flags : list bool) (l : list A) :
  List.length flags = List.length l ->
  forallb (fun p => p) flags = true -> select flags l = l.
Proof.
  revert l. induction flags as [|b flags IH]; intros [|x l] L H;
    simpl in *; try discriminate; auto.
  apply andb_true_iff in H. destruct H as [-> H]. f_equal. apply IH; auto.
Qed.

(** X6. A commit step is not atomic: each create call is accepted or refused
    by its own write, the records of the accepted calls stay stored, and the
    reply is the confirmation when every write was accepted (then every
    candidate is stored) and the generic error message otherwise. *)
Theorem refused_writes_are_not_rolled_back (w : World) :
  accepts w = true -> question_turn w = false -> image_readable env w ->
  candidates env w <> [] ->
  let cands := candidates env w in
  let n := List.length cands in
  let flags := write_flags env (S (ticks w)) n in
  let uid := uid_of (user w) in
  let w' := snd (handleSend env w) in
  (exists t, messages w'
             = messages w ++ [echo env w; commit_reply t cands flags]) /\
  List.map digest (records env uid w')
  = List.map digest (records env uid w) ++ List.map digest (select flags cands) /\
  (forallb (fun p => p) flags = true -> select flags cands = cands) /\
  commits (trace w')
  = commits (trace w)
    ++ List.map (fun e => EvAddExpense uid e
                            (or_else (input w) (lit "Receipt Scan"))) cands.
Proof.
  intros A Q R NE. cbv zeta.
  destruct (commit_pass env w A Q R NE) as (P & C & _).
  destruct P as (_ & _ & _ & _ & _ & _ & M & _ & K & _).
  split; [eexists; exact M|]. split; [assumption|]. split; [|assumption].
  apply select_all. unfold write_flags. rewrite length_map, length_seq.
  reflexivity.
Qed.

Lemma vision_events_without_key (w : World) :
  API_KEY env = false -> remote_calls (vision_events env w) = [].
Proof.
  intros K. unfold vision_events.
  destruct (selectedImage w) as [f|]; simpl; auto.
  destruct (readAsDataURL env f); simpl; auto.
  rewrite agent_answer_without_key by exact K. reflexivity.
Qed.

(** X7. Without an API key a question turn sends no request, not even for
    an image that came along; it is answered with the text "API Key missing."
    when the image, if there is one, can be read, and with the generic error
    message when it cannot. *)
Theorem question_without_key (w : World) :
  API_KEY env = false ->
  accepts w = true -> question_turn w = true ->
  let w' := snd (handleSend env w) in
  let t := Date_now env (S (ticks w)) in
  remote_calls (trace w') = remote_calls (trace w) /\
  (image_readable env w ->
   messages w'
   = messages w ++ [echo env w; bot t (lit "API Key missing.") None]) /\
  (image_unreadable env w ->
   messages w' = messages w ++ [echo env w; bot t error_text None]).
Proof.
  intros K A Q. cbv zeta.
  assert (Un : image_unreadable env w ->
               remote_calls (trace (snd (handleSend env w)))
               = remote_calls (trace w) /\
               messages (snd (handleSend env w))
               = messages w ++
                 [echo env w;
                  bot (Date_now env (S (ticks w))) error_text None]).
  { intros (f & S & U).
    destruct (unreadable_pass env w f A S U) as (P & T & _).
    destruct P as (_ & _ & _ & _ & _ & _ & M & _).
    rewrite T, M, filter_app. simpl. rewrite app_nil_r. auto. }
  assert (Re : image_readable env w ->
               remote_calls (trace (snd (handleSend env w)))
               = remote_calls (trace w) /\
               messages (snd (handleSend env w))
               = messages w ++
                 [echo env w;
                  bot (Date_now env (S (ticks w)))
                      (lit "API Key missing.") None]).
  { intros R.
    destruct (question_pass env w A Q R) as (P & T & _).
    destruct P as (_ & _ & _ & _ & _ & _ & M & _).
    rewrite M, T. rewrite vision_events_without_key by exact K.
    unfold summary_answer. rewrite K. simpl. rewrite app_nil_r. auto. }
  split; [|split].
  - destruct (readable_or_not env w) as [R|U].
    + apply (proj1 (Re R)).
    + apply (proj1 (Un U)).
  - intros R. apply (proj2 (Re R)).
  - intros U. apply (proj2 (Un U)).
Qed.

End Passes2.

Section AgentsX.
Context {RT : Runtime}.
Variable env : Env.

Lemma or_else_truthy (a b : jsstring) :
  truthy b = true -> truthy (or_else a b) = true.
Proof. unfold or_else. destruct (truthy a) eqn:T; auto. Qed.

Lemma firstn_map_length {A B} (f : A -> B) (n : nat) (l : list A) :
  (List.length (List.map f (firstn n l)) <= n)%nat.
Proof. rewrite length_map. apply firstn_le_length. Qed.

(** X10. The summary agent never throws and never answers with the empty
    string; without an API key it answers "API Key missing." without a
    request, and with one it sends exactly one request, which carries the
    label, amount and category of the first 100 records at most. *)
Theorem summary_agent_always_answers (q : jsstring) (data : list Expense)
        (w : World) :
  exists ans evs,
    runSummaryAgent env q data w = (Normal ans, log evs w) /\
    truthy ans = true /\
    (API_KEY env = false -> ans = lit "API Key missing." /\ evs = []) /\
    (API_KEY env = true ->
     exists ds,
       remote_calls evs = [EvGenerate (ReqSummary q ds)] /\
       ds = List.map digest (firstn 100 data) /\
       (List.length ds <= 100)%nat).
Proof.
  exists (fst (summary_answer env q data)), (snd (summary_answer env q data)).
  split; [apply runSummaryAgent_run|].
  unfold summary_answer. cbv zeta.
  pose proof (firstn_map_length digest 100 data) as L.
  destruct (API_KEY env); simpl.
  - split.
    + destruct (generateContent env _) as [|[t|]]; simpl; auto.
      apply or_else_truthy. reflexivity.
    + split; [discriminate|]. intros _. eexists.
      split; [|split; [reflexivity | exact L]].
      destruct (generateContent env _) as [|[t|]]; reflexivity.
  - split; [reflexivity|]. split; [auto | discriminate].
Qed.

(** X11. The parsing agent and the vision agent never throw and change
    nothing but the trace; they return a non-empty list only when there is an
    API key, the request was answered with a non-empty text and that text was
    parsed to this list: every failure is turned into the empty list. *)
Theorem extraction_agents_degrade_to_empty (w : World) :
  (forall text ctx,
      let req := ReqParse text ctx in
      exists l evs,
        runParsingAgent env text ctx w = (Normal l, log evs w) /\
        (l <> [] ->
         API_KEY env = true /\
         exists t, generateContent env req = Response (Some t) /\
                   truthy t = true /\ JSON_parse env t = Some l)) /\
  (forall b64 mime,
      let req := ReqVision b64 mime in
      exists l evs,
        runVisionAgent env b64 mime w = (Normal l, log evs w) /\
        (l <> [] ->
         API_KEY env = true /\
         exists t, generateContent env req = Response (Some t) /\
                   truthy t = true /\ JSON_parse env t = Some l)).
Proof.
  assert (D : forall req,
             fst (agent_answer env req) <> [] ->
             API_KEY env = true /\
             exists t, generateContent env req = Response (Some t) /\
                       truthy t = true /\
                       JSON_parse env t = Some (fst (agent_answer env req))).
  { intros req. unfold agent_answer, decode.
    destruct (API_KEY env); simpl; [|congruence].
    destruct (generateContent env req) as [|[t|]]; simpl; try congruence.
    destruct (truthy t) eqn:T; simpl; try congruence.
    destruct (JSON_parse env t) as [l|] eqn:P; simpl; try congruence.
    intros _. split; auto. exists t. auto. }
  split; intros; cbv zeta; do 2 eexists;
    (split; [first [apply runParsingAgent_run | apply runVisionAgent_run]
            | apply D]).
Qed.

Lemma runAdvisorAgent_shape (data : list Expense) (w : World) :
  exists ans evs,
    runAdvisorAgent env data w = (Normal ans, log evs w) /\
    truthy ans = true /\
    (data = [] ->
     ans = lit "Start adding expenses to get AI insights!" /\ evs = []) /\
    (data <> [] -> API_KEY env = false ->
     ans = lit "Add your API Key to enable AI insights." /\ evs = []) /\
    (data <> [] -> API_KEY env = true ->
     evs = [EvGenerate (ReqAdvisor (List.map digest (firstn 30 data)))]) /\
    (List.length (remote_calls evs) <= 1)%nat.
Proof.
  unfold runAdvisorAgent.
  destruct data as [|e data'] eqn:ED.
  - simpl. do 2 eexists. rewrite log_nil. split; [reflexivity|].
    split; [reflexivity|]. split; [auto|]. split; [congruence|].
    split; [congruence | simpl; lia].
  - rewrite <- ED. 
    replace (List.length data =? 0)%nat with false
      by (rewrite ED; reflexivity).
    cbv zeta.
    generalize (ReqAdvisor (List.map digest (firstn 30 data))). intros req.
    destruct (API_KEY env); simpl.
    + unfold bind, emit, modify, ret.
      destruct (generateContent env req) as [|[t|]];
        (do 2 eexists; split;
         [destruct w; unfold log; simpl; reflexivity|]);
        (split; [first [reflexivity | apply or_else_truthy; reflexivity]|]);
        (split; [intros X; rewrite ED in X; discriminate|]);
        (split; [discriminate|]); (split; [reflexivity | simpl; lia]).
    + do 2 eexists. rewrite log_nil. split; [reflexivity|].
      split; [reflexivity|].
      split; [intros X; rewrite ED in X; discriminate|].
      split; [auto|]. split; [discriminate | simpl; lia].
Qed.

(** X12. The advisor agent never throws and never answers with the empty
    string; on an empty history it answers with the invitation to start
    without a request, even with an API key; without a key it asks for one;
    otherwise it sends one request with the first 30 records at most. *)
Theorem advisor_agent_always_answers (data : list Expense) (w : World) :
  exists ans evs,
    runAdvisorAgent env data w = (Normal ans, log evs w) /\
    truthy ans = true /\
    (data = [] ->
     ans = lit "Start adding expenses to get AI insights!" /\ evs = []) /\
    (data <> [] -> API_KEY env = false ->
     ans = lit "Add your API Key to enable AI insights." /\ evs = []) /\
    (data <> [] -> API_KEY env = true ->
     evs = [EvGenerate (ReqAdvisor (List.map digest (firstn 30 data)))]) /\
    (List.length (remote_calls evs) <= 1)%nat.
Proof. apply runAdvisorAgent_shape. Qed.

(** X13. A run of the advisor trigger sends at most one request and does
    nothing on the chat tab, with no records or with a tip already there;
    once a run on the dashboard with records has set its tip, every later
    run, in any world, changes nothing and sends nothing. *)
Theorem advisor_tip_is_fetched_once (p : Panel) (w : World) :
  exists p' evs,
    advisor_effect env p w = (Normal p', log evs w) /\
    activeTab p' = activeTab p /\
    (List.length (remote_calls evs) <= 1)%nat /\
    (activeTab p = chat \/ expenses w = [] \/ no_tip p = false ->
     p' = p /\ evs = []) /\
    (activeTab p = dashboard -> expenses w <> [] ->
     forall w2, advisor_effect env p' w2 = (Normal p', w2)).
Proof.
  unfold advisor_effect, bind, get_state, ret.
  destruct (is_dashboard (activeTab p) && (0 <? List.length (expenses w))%nat
            && no_tip p) eqn:C.
  - apply andb_true_iff in C. destruct C as [C N].
    apply andb_true_iff in C. destruct C as [D L].
    destruct (runAdvisorAgent_shape (expenses w) w)
      as (ans & evs & E & T & _ & _ & _ & R).
    rewrite E. do 2 eexists. split; [reflexivity|].
    split; [reflexivity|]. split; [exact R|]. split.
    + intros [X|[X|X]].
      * rewrite X in D. discriminate.
      * rewrite X in L. discriminate.
      * congruence.
    + intros _ _ w2. unfold no_tip. simpl. rewrite T. simpl.
      rewrite !andb_false_r. reflexivity.
  - exists p, []. rewrite log_nil. split; [reflexivity|].
    split; [reflexivity|]. split; [simpl; lia|]. split; [auto|].
    intros D NE w2.
    assert (N : no_tip p = false).
    { rewrite D in C. simpl in C.
      destruct (expenses w); [congruence|]. simpl in C. exact C. }
    rewrite N, !andb_false_r. reflexivity.
Qed.

End AgentsX.

Section Store.
Context {RT : Runtime}.
Variable env : Env.

Lemma insert_sorted_front (time : Expense -> Z) x l :
  Forall (fun z => (time x >= time z)%Z) l ->
  insert_sorted (desc time) x l = x :: l.
Proof.
  intros F. destruct l as [|y l]; simpl; auto.
  inversion F; subst. unfold desc.
  destruct (Z.ltb_spec 0 (time y - time x)); [lia | reflexivity].
Qed.

Lemma descending_filter (time : Expense -> Z) (p : Expense -> bool) l :
  descending time l -> descending time (filter p l).
Proof.
  unfold descending. induction 1 as [|y l S IH F]; simpl.
  - constructor.
  - destruct (p y); auto. constructor; auto.
    rewrite Forall_forall in *. intros z Hz.
    apply filter_In in Hz. apply F. tauto.
Qed.

(** Filtering commutes with an insertion into a descending list. *)
Lemma insert_sorted_filter (time : Expense -> Z) (p : Expense -> bool) x l :
  descending time l ->
  filter p (insert_sorted (desc time) x l)
  = if p x then insert_sorted (desc time) x (filter p l) else filter p l.
Proof.
  unfold descending. induction 1 as [|y l S IH F]; simpl.
  - destruct (p x); reflexivity.
  - unfold desc at 1.
    destruct (Z.ltb_spec 0 (time y - time x)) as [G|G]; simpl.
    + rewrite IH. destruct (p y) eqn:Py; destruct (p x) eqn:Px; simpl;
        try reflexivity.
      unfold desc at 2.
      destruct (Z.ltb_spec 0 (time y - time x)); [reflexivity | lia].
    + destruct (p x) eqn:Px; simpl; [|reflexivity].
      symmetry. apply insert_sorted_front.
      destruct (p y); [constructor; [lia|]|];
        rewrite Forall_forall in *; intros z Hz;
        apply filter_In in Hz; specialize (F z (proj1 Hz)); lia.
Qed.

Lemma Array_sort_filter (time : Expense -> Z) (p : Expense -> bool) l :
  filter p (Array_sort (desc time) l) = Array_sort (desc time) (filter p l).
Proof.
  induction l as [|x l IH]; simpl; auto.
  rewrite insert_sorted_filter by apply Array_sort_descending.
  rewrite IH. destruct (p x); reflexivity.
Qed.

(** A list of records of one and the same time is left as it is. *)
Lemma Array_sort_ties (time : Expense -> Z) (t : Z) l :
  Forall (fun e => time e = t) l -> Array_sort (desc time) l = l.
Proof.
  induction 1 as [|x l H F IH]; simpl; auto.
  rewrite IH. apply insert_sorted_front.
  eapply Forall_impl; [|exact F]. simpl. intros; lia.
Qed.

(** X15. The sort of the subscription is stable: the records of one and the
    same creation time are delivered in the order in which they are stored. *)
Theorem ties_keep_their_stored_order (time : Expense -> Z) (t : Z)
        (l : list Expense) :
  filter (fun e => (time e =? t)%Z) (Array_sort (desc time) l)
  = filter (fun e => (time e =? t)%Z) l.
Proof.
  rewrite Array_sort_filter. apply Array_sort_ties with (t := t).
  apply Forall_forall. intros e He. apply filter_In in He.
  apply Z.eqb_eq. tauto.
Qed.

Lemma getLocalData_fixed (s : Slot) :
  Forall (fun e => jsonify e = e) (getLocalData_of s).
Proof.
  destruct s; simpl; auto. apply Forall_forall. intros e He.
  apply in_map_iff in He. destruct He as (e0 & <- & _).
  apply jsonify_idem.
Qed.

Lemma map_fixed {A} (f : A -> A) (l : list A) :
  Forall (fun x => f x = x) l -> List.map f l = l.
Proof. induction 1; simpl; congruence. Qed.

Lemma Forall_filter {A} (P : A -> Prop) (p : A -> bool) (l : list A) :
  Forall P l -> Forall P (filter p l).
Proof.
  intros F. apply Forall_forall. rewrite Forall_forall in F.
  intros x Hx. apply filter_In in Hx. apply F. tauto.
Qed.

Lemma filter_twice {A} (p : A -> bool) (l : list A) :
  filter p (filter p l) = filter p l.
Proof.
  induction l as [|x l IH]; simpl; auto.
  destruct (p x) eqn:P; simpl; [rewrite P|]; congruence.
Qed.

(** What a delete whose write goes through leaves, in local mode. *)
Lemma removeExpense_local (w : World) (uid expenseId : jsstring) :
  firebase env = false -> write_ok env (ticks w) = true ->
  let keep := fun e => negb (has_id expenseId e) in
  let w' := snd (removeExpense env uid expenseId w) in
  fst (removeExpense env uid expenseId w) = Normal tt /\
  getLocalData_of (localStorage w')
  = filter keep (getLocalData_of (localStorage w)) /\
  expenses w'
  = filter keep (Array_sort (desc local_time)
                            (getLocalData_of (localStorage w))) /\
  in_sync w' /\ ticks w' = S (ticks w) /\ firestore w' = firestore w.
Proof.
  intros F W. cbv zeta. unfold removeExpense, in_sync. rewrite F.
  destruct w as [u0 ex ms inp img prev proc st ls fs tk tr]. proj.
  run. rewrite W. run.
  assert (E : getLocalData_of
                (Stored (List.map jsonify
                   (filter (fun e => negb (has_id expenseId e))
                           (getLocalData_of ls))))
              = filter (fun e => negb (has_id expenseId e))
                       (getLocalData_of ls)).
  { simpl. rewrite map_jsonify_idem. apply map_fixed.
    apply Forall_filter. apply getLocalData_fixed. }
  rewrite E. rewrite Array_sort_filter. auto 10.
Qed.

(** X16. In local mode a delete whose write goes through removes from the
    delivered record set exactly the records that carry the id and leaves
    the order of the others; the record set [App] shows is updated, it is
    what [handleDeleteExpense] leaves, the id is absent afterwards, and a
    second delete changes nothing. *)
Theorem delete_removes_exactly_the_id (w : World)
        (uid expenseId : jsstring) :
  firebase env = false -> write_ok env (ticks w) = true ->
  let keep := fun e => negb (has_id expenseId e) in
  let w' := snd (removeExpense env uid expenseId w) in
  (forall clock,
      delivered env clock uid w' = filter keep (delivered env clock uid w)) /\
  expenses w' = delivered env 0 uid w' /\
  snd (handleDeleteExpense env expenseId w) = w' /\
  id_absent env uid expenseId w' /\
  (forall clock,
     delivered env clock uid (snd (removeExpense env uid expenseId w'))
     = delivered env clock uid w').
Proof.
  intros F W. cbv zeta.
  destruct (removeExpense_local w uid expenseId F W)
    as (_ & L & X & Y & K & _).
  unfold delivered, id_absent. rewrite F.
  split; [intros _; rewrite L; symmetry; apply Array_sort_filter|].
  split; [exact Y|].
  split.
  { clear - F W. unfold handleDeleteExpense, removeExpense. rewrite F.
    destruct w as [u0 ex ms inp img prev proc st ls fs tk tr].
    cbv beta iota zeta delta [bind get_state promise_of async ret]. proj.
    run. rewrite W. run. reflexivity. }
  assert (Abs : Forall (fun e => has_id expenseId e = false)
                  (getLocalData_of
                     (localStorage (snd (removeExpense env uid expenseId w))))).
  { rewrite L. apply Forall_forall. intros e He. apply filter_In in He.
    destruct He as [_ H]. apply negb_true_iff in H. exact H. }
  split; [exact Abs|].
  intros clock.
  assert (Abs' : id_absent env uid expenseId
                   (snd (removeExpense env uid expenseId w)))
    by (unfold id_absent; rewrite F; exact Abs).
  destruct (removeExpense_absent env _ uid expenseId Abs') as (_ & D & _).
  specialize (D clock uid). unfold delivered in D. rewrite F in D. exact D.
Qed.

End Store.

Section RoundTrip.
Context {RT : Runtime}.
Variable env : Env.

Lemma filter_drops_last {A} (p : A -> bool) (l : list A) (x : A) :
  Forall (fun y => p y = true) l -> p x = false ->
  filter p (l ++ [x]) = l.
Proof.
  intros F X. rewrite filter_app. simpl. rewrite X, app_nil_r.
  apply filter_keeps_all. exact F.
Qed.

(** X17. In both modes, a create followed by a delete of the id the record
    was given restores the user's record set, and so what the subscription
    delivers, as long as that id was not in use. *)
Theorem create_then_delete_restores (w : World) (uid text : jsstring)
        (e : Expense) :
  all_writes_succeed env ->
  let new_id := if firebase env then new_doc_id env (ticks w)
                else randomUUID env (ticks w) in
  id_absent env uid new_id w ->
  let w1 := snd (addExpense env uid e text w) in
  let w2 := snd (removeExpense env uid new_id w1) in
  records env uid w1 <> records env uid w /\
  records env uid w2 = records env uid w /\
  (forall clock, delivered env clock uid w2 = delivered env clock uid w).
Proof.
  intros Hall. cbv zeta. unfold id_absent, records, delivered.
  destruct (firebase env) eqn:F; intros Abs.
  - unfold addExpense, removeExpense. rewrite F.
    destruct w as [u0 ex ms inp img prev proc st ls fs tk tr]. proj.
    run. rewrite (Hall tk). run. rewrite (Hall (S tk)). run.
    rewrite !update_collection_same.
    assert (E : filter (fun d : Doc => negb (str_eqb (doc_id d) (new_doc_id env tk)))
                  (fs uid ++
                   [mkDoc (new_doc_id env tk)
                      (mkExpense (id e) (item e) (amount e) (category e)
                         (serverTimestamp env tk) (Some text))])
                = fs uid).
    { apply filter_drops_last.
      - eapply Forall_impl; [|exact Abs]. simpl. intros d ->. reflexivity.
      - simpl. rewrite str_eqb_refl. reflexivity. }
    rewrite E. split; [|auto].
    rewrite map_app. simpl. intros X.
    apply (f_equal (@List.length Expense)) in X.
    rewrite length_app in X. simpl in X. lia.
  - destruct (addExpense_local env w uid text e F (Hall _)) as (_ & A).
    assert (K1 : ticks (snd (addExpense env uid e text w)) = ticks w + 3).
    { destruct (addExpense_outcome env uid text e w)
        as (w' & evs & E & _ & K & _).
      rewrite E. simpl. rewrite K, F. reflexivity. }
    destruct (removeExpense_local env (snd (addExpense env uid e text w)) uid
                (randomUUID env (ticks w)) F (Hall _))
      as (_ & L & _).
    rewrite L, A.
    assert (E : filter (fun e0 => negb (has_id (randomUUID env (ticks w)) e0))
                  (getLocalData_of (localStorage w)
                   ++ [local_record env w e text])
                = getLocalData_of (localStorage w)).
    { apply filter_drops_last.
      - eapply Forall_impl; [|exact Abs]. simpl. intros d ->. reflexivity.
      - unfold has_id, local_record. simpl. rewrite str_eqb_refl.
        reflexivity. }
    rewrite E. split; [|auto].
    intros X. apply (f_equal (@List.length Expense)) in X.
    rewrite length_app in X. simpl in X. lia.
Qed.

(** X18. In local mode an absent or unparsable slot counts as the empty
    list: the subscription delivers no record, and the first create that goes
    through replaces the slot by the list of the new record alone. *)
Theorem unreadable_slot_counts_as_empty (w : World) (uid text : jsstring)
        (e : Expense) :
  firebase env = false ->
  localStorage w = Absent \/ localStorage w = Corrupt ->
  expenses (snd (subscribeToExpenses env uid w)) = [] /\
  (write_ok env (S (S (ticks w))) = true ->
   let w' := snd (addExpense env uid e text w) in
   localStorage w' = Stored [local_record env w e text] /\
   expenses w' = [local_record env w e text]).
Proof.
  intros F S. unfold subscribeToExpenses, addExpense, local_record.
  rewrite F.
  destruct w as [u0 ex ms inp img prev proc st ls fs tk tr]. proj.
  destruct S as [-> | ->]; run; (split; [reflexivity|]);
    intros W; rewrite W; run; split; reflexivity.
Qed.

End RoundTrip.

Section More.
Context {RT : Runtime}.
Variable env : Env.

Lemma remote_calls_agent (req : Request) :
  API_KEY env = true ->
  remote_calls (snd (agent_answer env req)) = [EvGenerate req].
Proof.
  intros K. unfold agent_answer, decode. rewrite K. simpl.
  destruct (generateContent env req) as [|[t|]]; simpl; auto.
  destruct (truthy t); simpl; auto.
  destruct (JSON_parse env t); simpl; auto.
Qed.

(** Every flag is set when every write goes through. *)
Lemma write_flags_all (t0 n : nat) :
  all_writes_succeed env ->
  forallb (fun p => p) (write_flags env t0 n) = true.
Proof.
  intros H. apply forallb_forall. intros x Hin. unfold write_flags in Hin.
  apply in_map_iff in Hin. destruct Hin as (i & <- & _). apply H.
Qed.

(** X8. On a turn with an image and a text that is no question, with an API
    key, exactly two requests are sent, the vision request before the parsing
    request; the create calls are issued for what the vision agent returned
    followed by what the parsing agent returned, and when the writes go
    through the reply carries the two lists in this order. *)
Theorem vision_comes_before_text (w : World) (f : File) (url : jsstring)
        (lv lt : list Expense) :
  API_KEY env = true ->
  accepts w = true -> question_turn w = false ->
  truthy (trim (input w)) = true ->
  selectedImage w = Some f -> readAsDataURL env f = Some url ->
  fst (runVisionAgent env (base64_of url) (file_type f) w) = Normal lv ->
  fst (runParsingAgent env (input w) (buildMemoryContext (expenses w)) w)
  = Normal lt ->
  let vision_req := ReqVision (base64_of url) (file_type f) in
  let parse_req := ReqParse (input w) (buildMemoryContext (expenses w)) in
  let uid := uid_of (user w) in
  let text := or_else (input w) (lit "Receipt Scan") in
  let w' := snd (handleSend env w) in
  remote_calls (trace w')
  = remote_calls (trace w) ++ [EvGenerate vision_req; EvGenerate parse_req] /\
  commits (trace w')
  = commits (trace w)
    ++ List.map (fun e => EvAddExpense uid e text) (lv ++ lt) /\
  (all_writes_succeed env -> lv ++ lt <> [] ->
   exists t txt,
     messages w'
     = messages w ++ [echo env w; bot t txt (Some (lv ++ lt))]).
Proof.
  intros K A Q T S U HV HT. cbv zeta.
  rewrite runVisionAgent_run in HV. rewrite runParsingAgent_run in HT.
  simpl in HV, HT. injection HV as HV. injection HT as HT.
  assert (R : image_readable env w).
  { intros f' E. rewrite S in E. injection E as <-. congruence. }
  assert (Q' : isQuestion (input w) = false).
  { unfold question_turn in Q. rewrite T in Q. exact Q. }
  assert (C : candidates env w = lv ++ lt).
  { unfold candidates, vision_candidates, text_candidates.
    rewrite S, U, T, Q', HV, HT. reflexivity. }
  assert (V : remote_calls (vision_events env w ++ parse_events env w)
              = [EvGenerate (ReqVision (base64_of url) (file_type f));
                 EvGenerate (ReqParse (input w)
                               (buildMemoryContext (expenses w)))]).
  { unfold vision_events, parse_events. rewrite S, U, T, Q'. simpl.
    rewrite filter_app. simpl. rewrite !remote_calls_agent by exact K.
    reflexivity. }
  rewrite <- V, <- C.
  destruct (candidates env w) as [|c l] eqn:E.
  - destruct (empty_pass env w A Q R E) as (_ & _ & _ & G).
    destruct (empty_extraction env w A Q R E) as (_ & G2 & _).
    split; [exact G|]. split.
    + simpl. rewrite app_nil_r. exact G2.
    + intros _ NE. congruence.
  - assert (NE : candidates env w <> []) by (rewrite E; discriminate).
    destruct (commit_pass env w A Q R NE) as (P & G2 & G).
    split; [exact G|]. rewrite E in *. split; [exact G2|].
    intros Hall _.
    destruct P as (_ & _ & _ & _ & _ & _ & M & _).
    unfold commit_reply in M. rewrite write_flags_all in M by exact Hall.
    do 2 eexists. exact M.
Qed.

(** In local mode the adapter keeps the record set [App] shows in step with
    the store. *)
Lemma removeExpense_keeps_sync (w : World) (uid expenseId : jsstring) :
  firebase env = false -> in_sync w ->
  in_sync (snd (removeExpense env uid expenseId w)).
Proof.
  intros F I. destruct (write_ok env (ticks w)) eqn:W.
  - destruct (removeExpense_local env w uid expenseId F W)
      as (_ & _ & _ & Y & _). exact Y.
  - unfold removeExpense. rewrite F.
    destruct w as [u0 ex ms inp img prev proc st ls fs tk tr]. proj.
    run. rewrite W. run. exact I.
Qed.

(** X19. In local mode the record set [App] shows is the delivered one after
    subscribing, and every operation keeps it so: a create and a delete,
    accepted or refused, [handleDeleteExpense] and a whole send pass. *)
Theorem local_view_stays_in_sync (w : World) (uid text expenseId : jsstring)
        (e : Expense) :
  firebase env = false ->
  in_sync (snd (subscribeToExpenses env uid w)) /\
  (in_sync w ->
   in_sync (snd (addExpense env uid e text w)) /\
   in_sync (snd (removeExpense env uid expenseId w)) /\
   in_sync (snd (handleDeleteExpense env expenseId w)) /\
   in_sync (snd (handleSend env w))).
Proof.
  intros F. split.
  - unfold subscribeToExpenses, in_sync. rewrite F.
    destruct w; reflexivity.
  - intros I. split; [|split; [|split]].
    + destruct (addExpense_outcome env uid text e w)
        as (w' & evs & E & _ & _ & _ & _ & _ & _ & Y & _).
      rewrite E. simpl. auto.
    + apply removeExpense_keeps_sync; auto.
    + pose proof (removeExpense_keeps_sync w (uid_of (user w)) expenseId F I)
        as Y.
      unfold handleDeleteExpense, bind, get_state, promise_of, async, ret.
      destruct (removeExpense env (uid_of (user w)) expenseId w)
        as [[[]| |] w']; exact Y.
    + destruct (accepts w) eqn:A.
      * destruct (pass_cases env w A) as (reply & sts & kept & P & _).
        destruct P as (_ & _ & _ & _ & _ & _ & _ & _ & _ & Y & _). auto.
      * rewrite (handleSend_refused env w A). exact I.
Qed.

End More.

Section MemoryX.
Context {RT : Runtime}.

Lemma own_get_app (k : jsstring) (o o' : props) :
  own_get k (o ++ o')
  = match own_get k o with Some v => Some v | None => own_get k o' end.
Proof.
  induction o as [|[k' v'] o IH]; simpl; auto.
  destruct (str_eqb k k'); auto.
Qed.

Lemma own_get_insert_index (k : jsstring) (n : N) (k' v : jsstring)
      (o : props) :
  own_get k' o = None ->
  own_get k (insert_index n k' v o)
  = if str_eqb k k' then Some v else own_get k o.
Proof.
  induction o as [|[k0 v0] o IH]; simpl; intros G.
  - reflexivity.
  - destruct (str_eqb k' k0) eqn:E0; [discriminate|].
    destruct (array_index k0) as [n0|].
    + destruct (n0 <? n)%N; simpl.
      * rewrite (IH G). destruct (str_eqb k k0) eqn:E1; auto.
        destruct (str_eqb k k') eqn:E2; auto.
        apply str_eqb_eq in E1. apply str_eqb_eq in E2. subst.
        rewrite str_eqb_refl in E0. discriminate.
      * reflexivity.
    + simpl. reflexivity.
Qed.

(** A property that is set is read back, and the others are as before. *)
Lemma own_get_obj_set (o : props) (k k' v : jsstring) :
  own_get k' o = None ->
  own_get k (obj_set o k' v) = if str_eqb k k' then Some v else own_get k o.
Proof.
  intros G. unfold obj_set. rewrite G.
  destruct (array_index k') as [n|].
  - apply own_get_insert_index. exact G.
  - rewrite own_get_app. simpl.
    destruct (str_eqb k k') eqn:E.
    + apply str_eqb_eq in E. subst. rewrite G. reflexivity.
    + destruct (own_get k o); reflexivity.
Qed.

Lemma habit_step_keeps (o : props) (e : Expense) :
  values_truthy o ->
  values_truthy (habit_step o e) /\
  (forall k v, own_get k o = Some v -> own_get k (habit_step o e) = Some v).
Proof.
  intros T. unfold habit_step.
  destruct (truthy (item e) && truthy (category e)) eqn:C; [|auto].
  unfold obj_get.
  destruct (own_get (trim (toLowerCase (item e))) o) as [v0|] eqn:G.
  - simpl. rewrite (T _ _ G). simpl. auto.
  - destruct (inherited (trim (toLowerCase (item e)))); simpl; [auto|].
    apply andb_true_iff in C. destruct C as [_ C].
    split.
    + intros k v. rewrite (own_get_obj_set o k _ _ G).
      destruct (str_eqb k _); [intros H; injection H as <-; exact C|].
      apply T.
    + intros k v H. rewrite (own_get_obj_set o k _ _ G).
      destruct (str_eqb k _) eqn:E; [|exact H].
      apply str_eqb_eq in E. subst. congruence.
Qed.

Lemma fold_habit_keeps (l : list Expense) :
  forall o, values_truthy o ->
    values_truthy (fold_left habit_step l o) /\
    (forall k v, own_get k o = Some v ->
                 own_get k (fold_left habit_step l o) = Some v).
Proof.
  induction l as [|e l IH]; intros o T; simpl; [auto|].
  destruct (habit_step_keeps o e T) as [T1 K1].
  destruct (IH _ T1) as [T2 K2]. split; auto.
Qed.

Lemma values_truthy_nil : values_truthy [].
Proof. intros k v H. discriminate. Qed.

(** X20. An entry of the habit map is never overwritten: the category a key
    has after a history is the one it has after any longer history, and it is
    not empty. *)
Theorem entries_are_never_overwritten (l l' : list Expense)
        (k c : jsstring) :
  own_get k (habitMap_of l) = Some c ->
  own_get k (habitMap_of (l ++ l')) = Some c /\ truthy c = true.
Proof.
  intros G. unfold habitMap_of in *. rewrite fold_left_app.
  destruct (fold_habit_keeps l [] values_truthy_nil) as [T _].
  destruct (fold_habit_keeps l' _ T) as [_ K].
  split; [apply K; exact G | apply (T _ _ G)].
Qed.

Lemma first_seen_truthy (l : list Expense) :
  forall seen,
    Forall (fun kv => truthy (snd kv) = true) (first_seen seen l).
Proof.
  induction l as [|e l IH]; intros seen; simpl; [constructor|].
  destruct (counted e) eqn:C; simpl; [|apply IH].
  destruct (negb (existsb (str_eqb (label e)) seen)); [|apply IH].
  constructor; [|apply IH]. simpl.
  unfold counted in C. apply andb_true_iff in C. tauto.
Qed.

(** X21. The memory context never has more than 50 entries, and once it has
    50 (for keys that are neither array indices nor property names of
    [Object.prototype]) later records no longer change it. *)
Theorem full_context_stops_learning (l l' : list Expense) :
  Forall (fun e => counted e = true -> plain_key (label e)) (l ++ l') ->
  (List.length (memory_entries (l ++ l')) <= 50)%nat /\
  (List.length (memory_entries l) = 50%nat ->
   buildMemoryContext (l ++ l') = buildMemoryContext l).
Proof.
  intros P. split.
  - unfold memory_entries. apply firstn_le_length.
  - intros Full. apply Forall_app in P. destruct P as [P P'].
    unfold buildMemoryContext, memory_entries, Object_entries,
      habitMap_of in *.
    rewrite fold_left_app.
    rewrite (fold_habit_step l [] P (Forall_nil _)) in *.
    cbn [app List.map] in *.
    rewrite (fold_habit_step l' _ P' (first_seen_truthy l [])).
    rewrite firstn_app.
    rewrite length_firstn in Full.
    replace (50 - List.length (first_seen [] l)) with 0 by lia.
    simpl. rewrite app_nil_r. reflexivity.
Qed.

End MemoryX.

Section Blank.
Context {RT : Runtime}.
Variable env : Env.

Lemma white_is_no_letter (c : code_unit) :
  is_white c = true -> ~ lower_letter (ascii_lower c).
Proof.
  unfold is_white, lower_letter, ascii_lower. intros W.
  repeat match goal with
         | H : (_ || _) = true |- _ => apply orb_true_iff in H; destruct H
         | H : (_ && _) = true |- _ => apply andb_true_iff in H; destruct H
         | H : (_ <=? _)%N = true |- _ => apply N.leb_le in H
         | H : (_ =? _)%N = true |- _ => apply N.eqb_eq in H
         end;
    destruct ((65 <=? c)%N && (c <=? 90)%N) eqn:E;
    try (apply andb_true_iff in E; destruct E as [E1 E2];
         apply N.leb_le in E1; apply N.leb_le in E2);
    lia.
Qed.

Lemma lead_words_not_empty : ~ In [] lead_words.
Proof. intros H. vm_compute in H. intuition discriminate. Qed.

(** X9. A text that starts with white space is never classified as a
    question, since the regular expression is tried on the untrimmed text:
    the pass never sets the summary status, and with an API key, when the
    text is not blank and the image, if any, can be read, the last request of
    the pass is the parsing request for the untrimmed text. *)
Theorem leading_blank_is_never_a_question (w : World) (c : code_unit)
        (rest : jsstring) :
  input w = c :: rest -> is_white c = true ->
  let w' := snd (handleSend env w) in
  isQuestion (input w) = false /\
  (accepts w = true ->
   exists evs,
     trace w' = trace w ++ evs /\ ~ In summary (statuses evs)) /\
  (accepts w = true -> API_KEY env = true ->
   truthy (trim (input w)) = true -> image_readable env w ->
   exists pre,
     remote_calls (trace w')
     = remote_calls (trace w) ++ pre
       ++ [EvGenerate (ReqParse (input w)
                         (buildMemoryContext (expenses w)))] /\
     (selectedImage w = None -> pre = [])).
Proof.
  intros I W. cbv zeta.
  assert (Q : isQuestion (input w) = false).
  { rewrite I. destruct (isQuestion (c :: rest)) eqn:Q; auto. exfalso.
    unfold isQuestion, test_anchored_alt_i in Q.
    apply existsb_exists in Q. destruct Q as (x & Hin & M).
    pose proof lead_words_lower as L. rewrite Forall_forall in L.
    specialize (L x Hin). destruct x as [|p x'].
    - apply lead_words_not_empty. exact Hin.
    - inversion L as [|? ? Lp _]; subst. simpl in M.
      apply andb_true_iff in M. destruct M as [M _].
      apply (char_match_lower c Lp) in M.
      apply (white_is_no_letter c W). rewrite M. exact Lp. }
  assert (QT : question_turn w = false).
  { unfold question_turn. rewrite Q. apply andb_false_r. }
  assert (NS : ~ In summary (extraction_statuses w)).
  { unfold extraction_statuses. rewrite Q.
    destruct (is_some (selectedImage w)), (truthy (trim (input w)));
      simpl; intuition discriminate. }
  assert (RC : accepts w = true -> image_readable env w ->
               remote_calls (trace (snd (handleSend env w)))
               = remote_calls (trace w)
                 ++ remote_calls (vision_events env w ++ parse_events env w)).
  { intros A R. destruct (candidates env w) as [|x l] eqn:E.
    - destruct (empty_pass env w A QT R E) as (_ & _ & _ & G). exact G.
    - assert (NE : candidates env w <> []) by (rewrite E; discriminate).
      destruct (commit_pass env w A QT R NE) as (_ & _ & G). exact G. }
  split; [exact Q|]. split.
  - intros A. destruct (readable_or_not env w) as [R|(f & S & U)].
    + destruct (candidates env w) as [|x l] eqn:E.
      * destruct (empty_pass env w A QT R E) as (P & _).
        destruct P as (_ & _ & _ & _ & _ & _ & _ & (evs & Tr & St) & _).
        exists (EvProcessing true :: evs). split; [exact Tr|].
        simpl. rewrite St. intros H. apply in_app_or in H.
        destruct H as [H|H]; [exact (NS H) | simpl in H; intuition discriminate].
      * assert (NE : candidates env w <> []) by (rewrite E; discriminate).
        destruct (commit_pass env w A QT R NE) as (P & _).
        destruct P as (_ & _ & _ & _ & _ & _ & _ & (evs & Tr & St) & _).
        exists (EvProcessing true :: evs). split; [exact Tr|].
        simpl. rewrite St. intros H. apply in_app_or in H.
        destruct H as [H|H]; [exact (NS H) | simpl in H; intuition discriminate].
    + destruct (unreadable_pass env w f A S U) as (_ & Tr & _).
      eexists. split; [exact Tr|]. simpl. intuition discriminate.
  - intros A K T R. rewrite (RC A R).
    exists (remote_calls (vision_events env w)).
    rewrite filter_app. unfold parse_events. rewrite T, Q. simpl.
    rewrite remote_calls_agent by exact K. split; [reflexivity|].
    intros S. unfold vision_events. rewrite S. reflexivity.
Qed.

Lemma split_no_comma (s : jsstring) :
  forallb (fun c => negb (cu_eqb c 44%N)) s = true ->
  split_at 44%N s = [s].
Proof.
  induction s as [|c s IH]; simpl; auto.
  intros H. apply andb_true_iff in H. destruct H as [C H].
  apply negb_true_iff in C. rewrite C, (IH H). reflexivity.
Qed.

Lemma split_header (header payload : jsstring) :
  forallb (fun c => negb (cu_eqb c 44%N)) header = true ->
  split_at 44%N (header ++ 44%N :: payload)
  = header :: split_at 44%N payload.
Proof.
  induction header as [|c s IH]; simpl.
  - reflexivity.
  - intros H. apply andb_true_iff in H. destruct H as [C H].
    apply negb_true_iff in C. rewrite C, (IH H). reflexivity.
Qed.

(** X14. [fileToBase64] resolves with what follows the comma of a data URL
    whose header and payload are free of commas, resolves with [undefined]
    for a result without comma, and is rejected when the file cannot be
    read. *)
Theorem fileToBase64_strips_the_header (file : File) (w : World)
        (header payload : jsstring) :
  forallb (fun c => negb (cu_eqb c 44%N)) header = true ->
  forallb (fun c => negb (cu_eqb c 44%N)) payload = true ->
  (readAsDataURL env file = Some (header ++ 44%N :: payload) ->
   fileToBase64 env file w = (Normal (Some payload), log [EvFileRead file] w)) /\
  (readAsDataURL env file = Some header ->
   fileToBase64 env file w = (Normal None, log [EvFileRead file] w)) /\
  (readAsDataURL env file = None ->
   fileToBase64 env file w = (Throw, log [EvFileRead file] w)).
Proof.
  intros H P. unfold fileToBase64, base64_of, bind, emit, modify, ret, throw,
    log.
  split; [|split]; intros R; rewrite R.
  - rewrite (split_header header payload H), (split_no_comma payload P).
    reflexivity.
  - rewrite (split_no_comma header H). reflexivity.
  - reflexivity.
Qed.

End Blank.

(** ** These properties at work *)

Section MoreInstances.
Import Scenario Cases.

Lemma second_submit_is_noop_witness :
  let env := one_purchase in
  let w := fresh "bought dinner 500" None in
  accepts w = true /\
  let w' := snd (handleSend env w) in
  submit_disabled w' = true /\
  handleSend env w' = (Normal tt, w').
Proof.
  split; [reflexivity|].
  apply (second_submit_is_noop one_purchase (fresh "bought dinner 500" None)).
  reflexivity.
Defined.

Lemma status_follows_a_walk_witness :
  let env := one_purchase in
  let w := fresh "bought dinner 500" (Some receipt) in
  accepts w = true /\
  exists evs,
    trace (snd (handleSend env w)) = trace w ++ evs /\
    In (statuses evs) status_walks.
Proof.
  split; [reflexivity|].
  apply (status_follows_a_walk one_purchase
           (fresh "bought dinner 500" (Some receipt))).
  reflexivity.
Defined.

Lemma unreadable_image_gets_the_error_reply_witness :
  let env := unreadable_files in
  let w := fresh "bought dinner 500" (Some receipt) in
  accepts w = true /\ selectedImage w = Some receipt /\
  readAsDataURL env receipt = None /\
  let w' := snd (handleSend env w) in
  messages w'
  = messages w ++
    [echo env w; bot (Date_now env (S (ticks w))) error_text None] /\
  remote_calls (trace w') = remote_calls (trace w) /\
  commits (trace w') = commits (trace w) /\
  localStorage w' = localStorage w /\ firestore w' = firestore w.
Proof.
  split; [reflexivity|]. split; [reflexivity|]. split; [reflexivity|].
  apply (unreadable_image_gets_the_error_reply unreadable_files
           (fresh "bought dinner 500" (Some receipt)) receipt);
    reflexivity.
Defined.

Lemma refused_writes_are_not_rolled_back_witness :
  let env := flaky_writes in
  let w := fresh "bought dinner 500" (Some receipt) in
  accepts w = true /\ question_turn w = false /\
  image_readable env w /\ candidates env w <> [] /\
  write_flags env (S (ticks w)) (List.length (candidates env w))
  = [true; false] /\
  let cands := candidates env w in
  let n := List.length cands in
  let flags := write_flags env (S (ticks w)) n in
  let uid := uid_of (user w) in
  let w' := snd (handleSend env w) in
  (exists t, messages w'
             = messages w ++ [echo env w; commit_reply t cands flags]) /\
  List.map digest (records env uid w')
  = List.map digest (records env uid w) ++ List.map digest (select flags cands) /\
  (forallb (fun p => p) flags = true -> select flags cands = cands) /\
  commits (trace w')
  = commits (trace w)
    ++ List.map (fun e => EvAddExpense uid e
                            (or_else (input w) (lit "Receipt Scan"))) cands.
Proof.
  assert (R : image_readable flaky_writes
                (fresh "bought dinner 500" (Some receipt)))
    by (intros f _; simpl; discriminate).
  assert (N : candidates flaky_writes
                (fresh "bought dinner 500" (Some receipt)) <> [])
    by (vm_compute; discriminate).
  split; [reflexivity|]. split; [reflexivity|].
  split; [exact R|]. split; [exact N|].
  split; [vm_compute; reflexivity|].
  apply (refused_writes_are_not_rolled_back flaky_writes
           (fresh "bought dinner 500" (Some receipt)));
    [reflexivity | reflexivity | exact R | exact N].
Defined.

Lemma question_without_key_witness :
  let env := silent_model false in
  let w := fresh "How much did I spend on food?" (Some receipt) in
  API_KEY env = false /\
  accepts w = true /\ question_turn w = true /\ image_readable env w /\
  let w' := snd (handleSend env w) in
  let t := Date_now env (S (ticks w)) in
  remote_calls (trace w') = remote_calls (trace w) /\
  (image_readable env w ->
   messages w'
   = messages w ++ [echo env w; bot t (lit "API Key missing.") None]) /\
  (image_unreadable env w ->
   messages w' = messages w ++ [echo env w; bot t error_text None]).
Proof.
  assert (R : image_readable (silent_model false)
                (fresh "How much did I spend on food?" (Some receipt)))
    by (intros f _; simpl; discriminate).
  split; [reflexivity|]. split; [reflexivity|]. split; [reflexivity|].
  split; [exact R|].
  apply (question_without_key (silent_model false)
           (fresh "How much did I spend on food?" (Some receipt)));
    reflexivity.
Defined.

Lemma vision_comes_before_text_witness :
  let env := one_purchase in
  let w := fresh "bought dinner 500" (Some receipt) in
  let f := receipt in
  let url := lit "data:image/png;base64,AAAA" in
  let lv := [expense "dinner" 500 "Food"] in
  let lt := [expense "dinner" 500 "Food"] in
  API_KEY env = true /\
  accepts w = true /\ question_turn w = false /\
  truthy (trim (input w)) = true /\
  selectedImage w = Some f /\ readAsDataURL env f = Some url /\
  fst (runVisionAgent env (base64_of url) (file_type f) w) = Normal lv /\
  fst (runParsingAgent env (input w) (buildMemoryContext (expenses w)) w)
  = Normal lt /\
  let vision_req := ReqVision (base64_of url) (file_type f) in
  let parse_req := ReqParse (input w) (buildMemoryContext (expenses w)) in
  let uid := uid_of (user w) in
  let text := or_else (input w) (lit "Receipt Scan") in
  let w' := snd (handleSend env w) in
  remote_calls (trace w')
  = remote_calls (trace w) ++ [EvGenerate vision_req; EvGenerate parse_req] /\
  commits (trace w')
  = commits (trace w)
    ++ List.map (fun e => EvAddExpense uid e text) (lv ++ lt) /\
  (all_writes_succeed env -> lv ++ lt <> [] ->
   exists t txt,
     messages w'
     = messages w ++ [echo env w; bot t txt (Some (lv ++ lt))]).
Proof.
  do 8 (split; [reflexivity|]).
  apply (vision_comes_before_text one_purchase
           (fresh "bought dinner 500" (Some receipt)) receipt
           (lit "data:image/png;base64,AAAA")
           [expense "dinner" 500 "Food"] [expense "dinner" 500 "Food"]);
    reflexivity.
Defined.

Lemma leading_blank_is_never_a_question_witness :
  let env := one_purchase in
  let w := fresh " what did I spend?" None in
  let c := 32%N in
  let rest := lit "what did I spend?" in
  input w = c :: rest /\ is_white c = true /\
  @isQuestion Zrt rest = true /\
  let w' := snd (handleSend env w) in
  @isQuestion Zrt (input w) = false /\
  (accepts w = true ->
   exists evs,
     trace w' = trace w ++ evs /\ ~ In summary (statuses evs)) /\
  (accepts w = true -> API_KEY env = true ->
   truthy (trim (input w)) = true -> image_readable env w ->
   exists pre,
     remote_calls (trace w')
     = remote_calls (trace w) ++ pre
       ++ [EvGenerate (ReqParse (input w)
                         (buildMemoryContext (expenses w)))] /\
     (selectedImage w = None -> pre = [])).
Proof.
  split; [reflexivity|]. split; [reflexivity|]. split; [reflexivity|].
  apply (leading_blank_is_never_a_question one_purchase
           (fresh " what did I spend?" None) 32%N
           (lit "what did I spend?"));
    reflexivity.
Defined.

Lemma fileToBase64_strips_the_header_witness :
  let env := one_purchase in
  let w := fresh "bought dinner 500" (Some receipt) in
  let file := receipt in
  let header := lit "data:image/png;base64" in
  let payload := lit "AAAA" in
  forallb (fun c => negb (cu_eqb c 44%N)) header = true /\
  forallb (fun c => negb (cu_eqb c 44%N)) payload = true /\
  readAsDataURL env file = Some (header ++ 44%N :: payload) /\
  fileToBase64 env file w = (Normal (Some payload), log [EvFileRead file] w).
Proof.
  split; [reflexivity|]. split; [reflexivity|]. split; [reflexivity|].
  apply (fileToBase64_strips_the_header one_purchase receipt
           (fresh "bought dinner 500" (Some receipt))
           (lit "data:image/png;base64") (lit "AAAA"));
    reflexivity.
Defined.

Lemma delete_removes_exactly_the_id_witness :
  let env := silent_model false in
  let w := two_records in
  let uid := lit "local_user" in
  let expenseId := lit "tea" in
  firebase env = false /\ write_ok env (ticks w) = true /\
  let keep := fun e => negb (has_id expenseId e) in
  let w' := snd (removeExpense env uid expenseId w) in
  (forall clock,
      delivered env clock uid w' = filter keep (delivered env clock uid w)) /\
  expenses w' = delivered env 0 uid w' /\
  snd (handleDeleteExpense env expenseId w) = w' /\
  id_absent env uid expenseId w' /\
  (forall clock,
     delivered env clock uid (snd (removeExpense env uid expenseId w'))
     = delivered env clock uid w').
Proof.
  split; [reflexivity|]. split; [reflexivity|].
  apply (delete_removes_exactly_the_id (silent_model false) two_records
           (lit "local_user") (lit "tea"));
    reflexivity.
Defined.

Lemma create_then_delete_restores_witness :
  let env := cloud_model in
  let w := with_collection [stamped_doc "tea" 40 "Food" 5] in
  let uid := lit "local_user" in
  let text := lit "bus 25" in
  let e := expense "bus" 25 "Transport" in
  all_writes_succeed env /\
  let new_id := if firebase env then new_doc_id env (ticks w)
                else randomUUID env (ticks w) in
  id_absent env uid new_id w /\
  let w1 := snd (addExpense env uid e text w) in
  let w2 := snd (removeExpense env uid new_id w1) in
  records env uid w1 <> records env uid w /\
  records env uid w2 = records env uid w /\
  (forall clock, delivered env clock uid w2 = delivered env clock uid w).
Proof.
  assert (S : all_writes_succeed cloud_model) by (intros n; reflexivity).
  assert (A : id_absent cloud_model (lit "local_user")
                (new_doc_id cloud_model 0)
                (with_collection [stamped_doc "tea" 40 "Food" 5]))
    by (repeat constructor).
  split; [exact S|]. split; [exact A|].
  apply (create_then_delete_restores cloud_model
           (with_collection [stamped_doc "tea" 40 "Food" 5])
           (lit "local_user") (lit "bus 25")
           (expense "bus" 25 "Transport") S A).
Defined.

Lemma unreadable_slot_counts_as_empty_witness :
  let env := silent_model false in
  let w := fresh "bus 25" None in
  let uid := lit "local_user" in
  let text := lit "bus 25" in
  let e := expense "bus" 25 "Transport" in
  firebase env = false /\
  (localStorage w = Absent \/ localStorage w = Corrupt) /\
  write_ok env (S (S (ticks w))) = true /\
  expenses (snd (subscribeToExpenses env uid w)) = [] /\
  (write_ok env (S (S (ticks w))) = true ->
   let w' := snd (addExpense env uid e text w) in
   localStorage w' = Stored [local_record env w e text] /\
   expenses w' = [local_record env w e text]).
Proof.
  split; [reflexivity|]. split; [left; reflexivity|]. split; [reflexivity|].
  apply (unreadable_slot_counts_as_empty (silent_model false)
           (fresh "bus 25" None) (lit "local_user") (lit "bus 25")
           (expense "bus" 25 "Transport"));
    [reflexivity | left; reflexivity].
Defined.

Lemma local_view_stays_in_sync_witness :
  let env := one_purchase in
  let w := snd (subscribeToExpenses env (lit "local_user") two_records) in
  let uid := lit "local_user" in
  let text := lit "bus 25" in
  let e := expense "bus" 25 "Transport" in
  let expenseId := lit "tea" in
  firebase env = false /\ in_sync w /\
  in_sync (snd (subscribeToExpenses env uid w)) /\
  (in_sync w ->
   in_sync (snd (addExpense env uid e text w)) /\
   in_sync (snd (removeExpense env uid expenseId w)) /\
   in_sync (snd (handleDeleteExpense env expenseId w)) /\
   in_sync (snd (handleSend env w))).
Proof.
  split; [reflexivity|]. split; [reflexivity|].
  apply (local_view_stays_in_sync one_purchase
           (snd (subscribeToExpenses one_purchase (lit "local_user")
                   two_records))
           (lit "local_user") (lit "bus 25") (lit "tea")
           (expense "bus" 25 "Transport")).
  reflexivity.
Defined.

Lemma entries_are_never_overwritten_witness :
  let l := [expense "coffee" 30 "food"] in
  let l' := [expense "coffee" 45 "drinks"; expense "tea" 10 "drinks"] in
  let k := lit "coffee" in
  let c := lit "food" in
  own_get k (habitMap_of l) = Some c /\
  own_get k (habitMap_of (l ++ l')) = Some c /\ truthy c = true.
Proof.
  split; [reflexivity|].
  apply (entries_are_never_overwritten
           [expense "coffee" 30 "food"]
           [expense "coffee" 45 "drinks"; expense "tea" 10 "drinks"]
           (lit "coffee") (lit "food")).
  reflexivity.
Defined.

Lemma full_context_stops_learning_witness :
  let l := fifty_habits in
  let l' := [expense "late" 5 "misc"] in
  Forall (fun e => counted e = true -> plain_key (label e)) (l ++ l') /\
  List.length (memory_entries l) = 50%nat /\
  (List.length (memory_entries (l ++ l')) <= 50)%nat /\
  buildMemoryContext (l ++ l') = buildMemoryContext l.
Proof.
  assert (P : Forall (fun e : @Expense Zrt =>
                        counted e = true -> plain_key (label e))
                (fifty_habits ++ [expense "late" 5 "misc"]))
    by (repeat constructor).
  assert (L : List.length (memory_entries fifty_habits) = 50%nat)
    by (vm_compute; reflexivity).
  split; [exact P|]. split; [exact L|].
  split.
  - exact (proj1 (full_context_stops_learning fifty_habits
                    [expense "late" 5 "misc"] P)).
  - exact (proj2 (full_context_stops_learning fifty_habits
                    [expense "late" 5 "misc"] P) L).
Defined.

End MoreInstances.
